(** * django-machina: forum permission handler and markup validator

    A shallow embedding of
      - [machina/apps/forum_permission/handler.py] (class [PermissionHandler]),
      - [machina/core/validators.py] (class [MarkupMaxLengthValidator]).

    Conventions of the embedding.
      - Primary keys, content-type ids and group ids are integers ([Z]).
      - A queryset is the list of rows it yields when evaluated.  Django
        compares model instances by primary key, so [forum in queryset] is
        membership by [forum_id].
      - A datetime is an instant counted in microseconds ([Z]);
        [timedelta(days=d)] is [d] times [86_400_000_000].  The range limits
        of Python's [datetime] are not part of the model.
      - The forum tree (django-mptt), the object permission checker and the
        tables of the database are interfaces of the handler: they are the
        fields of the classes [ForumTree] and [Store] below. *)

From Stdlib Require Import ZArith List Bool String Ascii Lia.
Import ListNotations.
Local Open Scope Z_scope.

(** ** Data model *)

(** A poll option and a vote cast for it ([user.poll_votes] yields votes,
    [poll_option__poll] follows the option to its poll). *)
Record TopicPollOption := {
  option_pk : Z;
  option_poll : Z
}.

Record TopicPollVote := {
  vote_pk : Z;
  poll_option : TopicPollOption
}.

(** A user as the handler reads it: [user.is_superuser],
    [user.is_anonymous()], [user.poll_votes], the groups it belongs to, and
    its primary key ([None] for an identity that is not a row). *)
Record User := {
  user_pk : option Z;
  is_superuser : bool;
  is_anonymous : bool;
  groups : list Z;
  poll_votes : list TopicPollVote
}.

(** The tree queries the handler consumes: [forum.id],
    [forum.get_ancestors()] and the strict descendants of a forum, in tree
    order. *)
Class ForumTree := {
  Forum : Type;
  forum_id : Forum -> Z;
  get_ancestors : Forum -> list Forum;
  strict_descendants : Forum -> list Forum
}.

(** [forum.get_descendants(include_self=...)]: in tree order the forum
    itself comes first. *)
Definition get_descendants {tree : ForumTree} (forum : Forum) (include_self : bool)
  : list Forum :=
  if include_self then forum :: strict_descendants forum
  else strict_descendants forum.

Record Topic {tree : ForumTree} := {
  topic_forum : Forum
}.

Record Post {tree : ForumTree} := {
  post_pk : Z;
  post_topic : Topic;
  poster : User;
  approved : bool;
  post_created : Z
}.

Record TopicPoll {tree : ForumTree} := {
  poll_pk : Z;
  poll_topic : Topic;
  duration : option Z;
  poll_created : Z;
  user_changes : bool
}.

(** Rows of [ForumUserObjectPermission] and [ForumGroupObjectPermission]:
    who holds the grant, the permission (content type and codename) and the
    primary key of the forum it is granted on. *)
Record ForumUserObjectPermission := {
  uop_user : Z;
  uop_content_type : Z;
  uop_codename : string;
  uop_content_object : Z
}.

Record ForumGroupObjectPermission := {
  gop_group : Z;
  gop_content_type : Z;
  gop_codename : string;
  gop_content_object : Z
}.

(** What the handler reads from its environment: the forum table
    ([_get_queryset(Forum)]), the content type of [Forum], the two grant
    tables, the post table, the setting
    [DEFAULT_AUTHENTICATED_USER_FORUM_PERMISSIONS], guardian's anonymous
    user and [ObjectPermissionChecker(user).has_perm(codename, forum)]. *)
Class Store {tree : ForumTree} := {
  forum_queryset : list Forum;
  forum_ctype : Z;
  user_object_permissions : list ForumUserObjectPermission;
  group_object_permissions : list ForumGroupObjectPermission;
  post_objects : list Post;
  DEFAULT_AUTHENTICATED_USER_FORUM_PERMISSIONS : list string;
  get_anonymous_user : User;
  has_perm : User -> string -> Forum -> bool
}.

(** ** Small Python idioms *)

(** [x in ids] for a list of integers. *)
Definition mem_id (x : Z) (ids : list Z) : bool := existsb (Z.eqb x) ids.

(** [c in codenames] for a list of strings. *)
Definition mem_codename (c : string) (codenames : list string) : bool :=
  existsb (String.eqb c) codenames.

(** [set(xs).issubset(set(ys))]. *)
Definition issubset (xs ys : list string) : bool :=
  forallb (fun c => mem_codename c ys) xs.

(** [row.user == user] in a filter: a row matches the identity whose
    primary key it stores. *)
Definition pk_matches (row_pk : Z) (pk : option Z) : bool :=
  match pk with
  | Some k => row_pk =? k
  | None => false
  end.

(** [a == b] on users: same primary key; an identity without one equals no
    stored user. *)
Definition user_eqb (a b : User) : bool :=
  match user_pk a, user_pk b with
  | Some x, Some y => x =? y
  | _, _ => false
  end.

(** [queryset.exists()]. *)
Definition exists_ {A : Type} (queryset : list A) : bool :=
  match queryset with
  | [] => false
  | _ :: _ => true
  end.

(** [timedelta(days=d)], in microseconds. *)
Definition timedelta_days (d : Z) : Z := d * 86400000000.

Section Handler.
Context {tree : ForumTree} {store : Store}.

(** [forum in queryset]. *)
Definition qs_contains (queryset : list Forum) (forum : Forum) : bool :=
  existsb (fun f => forum_id f =? forum_id forum) queryset.

(** [queryset.values_list('id', flat=True)]. *)
Definition values_list_id (queryset : list Forum) : list Z :=
  map forum_id queryset.

(** [queryset.exclude(id__in=ids)]. *)
Definition exclude_id_in (ids : list Z) (queryset : list Forum) : list Forum :=
  filter (fun f => negb (mem_id (forum_id f) ids)) queryset.

(** The where-clause [pk__in=values]. *)
Definition pk__in (values : list Z) (forum : Forum) : bool :=
  mem_id (forum_id forum) values.

(** ** Common *)

(** [_perform_basic_permission_check], lines 245-261. *)
Definition _perform_basic_permission_check
  (forum : Forum) (user : User) (permission : string) : bool :=
  is_superuser user || has_perm user permission forum.

(** [_get_forums_for_user], lines 204-243. *)
Definition _get_forums_for_user (user : User) (perm_codenames : list string)
  : list Forum :=
  if is_superuser user then forum_queryset
  else
    let user := if is_anonymous user then get_anonymous_user else user in
    let user_obj_perms_queryset :=
      filter (fun r =>
                pk_matches (uop_user r) (user_pk user)
                && (uop_content_type r =? forum_ctype)
                && mem_codename (uop_codename r) perm_codenames)
             user_object_permissions in
    let groups_obj_perms_queryset :=
      filter (fun r =>
                (gop_content_type r =? forum_ctype)
                && mem_codename (gop_codename r) perm_codenames
                && mem_id (gop_group r) (groups user))
             group_object_permissions in
    let values := map uop_content_object user_obj_perms_queryset in
    let values' := map gop_content_object groups_obj_perms_queryset in
    (* objects = filter(pk__in=values) | filter(pk__in=values') *)
    let objects :=
      filter (fun f => pk__in values f || pk__in values' f) forum_queryset in
    if negb (exists_ objects)
       && issubset perm_codenames DEFAULT_AUTHENTICATED_USER_FORUM_PERMISSIONS
    then forum_queryset
    else objects.

(** The inner loop of [_get_hidden_forum_ids], lines 191-195: stops at the
    first ancestor that is not visible. *)
Fixpoint ancestors_visible (visible_forums ancestors : list Forum) : bool :=
  match ancestors with
  | [] => true
  | ancestor :: rest =>
      if negb (qs_contains visible_forums ancestor) then false
      else ancestors_visible visible_forums rest
  end.

(** One turn of the outer loop, lines 189-201. *)
Definition hide_forum (visible_forums : list Forum)
  (hidden_forums : list Z) (forum : Forum) : list Z :=
  if negb (mem_id (forum_id forum) hidden_forums) then
    if negb (ancestors_visible visible_forums (get_ancestors forum))
       || negb (qs_contains visible_forums forum)
    then
      let forum_and_descendants := get_descendants forum true in
      hidden_forums ++ values_list_id forum_and_descendants
    else hidden_forums
  else hidden_forums.

(** [_get_hidden_forum_ids], lines 181-202. *)
Definition _get_hidden_forum_ids (forums : list Forum) (user : User) : list Z :=
  let visible_forums :=
    _get_forums_for_user user ["can_see_forum"; "can_read_forum"]%string in
  fold_left (hide_forum visible_forums) forums [].

(** ** Filtering methods *)

(** [forum_list_filter], lines 29-41. *)
Definition forum_list_filter (qs : list Forum) (user : User) : list Forum :=
  if is_superuser user then qs
  else
    let forums_to_hide := _get_hidden_forum_ids qs user in
    exclude_id_in forums_to_hide qs.

(** [order_by('-created')]: insertion of a post into a list sorted by
    decreasing creation time.  The query leaves the order of posts created
    at the same instant open; here the post inserted goes after them. *)
Fixpoint insert_by_created (p : Post) (sorted : list Post) : list Post :=
  match sorted with
  | [] => [p]
  | q :: rest =>
      if post_created q <? post_created p then p :: sorted
      else q :: insert_by_created p rest
  end.

Definition order_by_created_desc (posts : list Post) : list Post :=
  fold_right insert_by_created [] posts.

(** [get_forum_last_post], lines 43-59. *)
Definition get_forum_last_post (forum : Forum) (user : User) : option Post :=
  let forums := get_descendants forum true in
  let hidden_forums :=
    if negb (is_superuser user) then _get_hidden_forum_ids forums user
    else [] in
  let forums := exclude_id_in hidden_forums forums in
  let posts :=
    order_by_created_desc
      (filter (fun p => approved p
                        && qs_contains forums (topic_forum (post_topic p)))
              post_objects) in
  match posts with
  | [] => None
  | p :: _ => Some p
  end.

(** ** Verification methods *)

Definition can_read_forum (forum : Forum) (user : User) : bool :=
  _perform_basic_permission_check forum user "can_read_forum".

Definition can_add_topic (forum : Forum) (user : User) : bool :=
  _perform_basic_permission_check forum user "can_start_new_topics".

Definition can_add_stickies (forum : Forum) (user : User) : bool :=
  _perform_basic_permission_check forum user "can_post_stickies".

Definition can_add_announcements (forum : Forum) (user : User) : bool :=
  _perform_basic_permission_check forum user "can_post_announcements".

Definition can_post_without_approval (forum : Forum) (user : User) : bool :=
  _perform_basic_permission_check forum user "can_post_without_approval".

Definition can_add_post (topic : Topic) (user : User) : bool :=
  _perform_basic_permission_check (topic_forum topic) user "can_reply_to_topics".

(** [can_edit_post], lines 104-117. *)
Definition can_edit_post (post : Post) (user : User) : bool :=
  is_superuser user
  || (user_eqb (poster post) user
      && has_perm user "can_edit_own_posts" (topic_forum (post_topic post)))
  || has_perm user "can_edit_posts" (topic_forum (post_topic post)).

(** [can_delete_post], lines 119-132. *)
Definition can_delete_post (post : Post) (user : User) : bool :=
  is_superuser user
  || (user_eqb (poster post) user
      && has_perm user "can_delete_own_posts" (topic_forum (post_topic post)))
  || has_perm user "can_delete_posts" (topic_forum (post_topic post)).

Definition can_create_polls (forum : Forum) (user : User) : bool :=
  _perform_basic_permission_check forum user "can_create_poll".

(** The test that makes [can_vote_in_poll] return [False] early, lines
    147-149: [poll.duration] is truthy (neither [None] nor [0]) and
    [poll_dtend < now()]. *)
Definition poll_closed (poll : TopicPoll) (now : Z) : bool :=
  match duration poll with
  | Some d =>
      if negb (d =? 0) then
        let poll_dtend := poll_created poll + timedelta_days d in
        poll_dtend <? now
      else false
  | None => false
  end.

(** [user.poll_votes.filter(poll_option__poll=poll)], line 156. *)
Definition user_votes (poll : TopicPoll) (user : User) : list TopicPollVote :=
  filter (fun v => option_poll (poll_option v) =? poll_pk poll) (poll_votes user).

(** [can_vote_in_poll], lines 142-162; [now] is the reading of the clock. *)
Definition can_vote_in_poll (poll : TopicPoll) (user : User) (now : Z) : bool :=
  if poll_closed poll now then false
  else
    let can_vote :=
      _perform_basic_permission_check
        (topic_forum (poll_topic poll)) user "can_vote_in_polls" in
    let user_votes := user_votes poll user in
    if exists_ user_votes && can_vote then user_changes poll
    else can_vote.

Definition can_attach_files (forum : Forum) (user : User) : bool :=
  _perform_basic_permission_check forum user "can_attach_file".

Definition can_download_files (forum : Forum) (user : User) : bool :=
  _perform_basic_permission_check forum user "can_download_file".

(** ** Vocabulary of the statements *)

(** The identity whose grants [_get_forums_for_user] looks up, lines
    219-220: guardian's anonymous user stands for an anonymous visitor. *)
Definition lookup_identity (user : User) : User :=
  if is_anonymous user then get_anonymous_user else user.

(** [user] directly holds one of [codenames] on [forum]. *)
Definition user_grant (user : User) (codenames : list string) (forum : Forum)
  : Prop :=
  exists r, In r user_object_permissions
            /\ user_pk user = Some (uop_user r)
            /\ uop_content_type r = forum_ctype
            /\ In (uop_codename r) codenames
            /\ uop_content_object r = forum_id forum.

(** A group of [user] holds one of [codenames] on [forum]. *)
Definition group_grant (user : User) (codenames : list string) (forum : Forum)
  : Prop :=
  exists r, In r group_object_permissions
            /\ In (gop_group r) (groups user)
            /\ gop_content_type r = forum_ctype
            /\ In (gop_codename r) codenames
            /\ gop_content_object r = forum_id forum.

Definition granted (user : User) (codenames : list string) (forum : Forum)
  : Prop :=
  user_grant user codenames forum \/ group_grant user codenames forum.

(** The queryset [objects] of [_get_forums_for_user]. *)
Definition granted_forums (user : User) (codenames : list string) : list Forum :=
  filter (fun f =>
            pk__in
              (map uop_content_object
                 (filter (fun r =>
                            pk_matches (uop_user r) (user_pk user)
                            && (uop_content_type r =? forum_ctype)
                            && mem_codename (uop_codename r) codenames)
                         user_object_permissions)) f
            || pk__in
                 (map gop_content_object
                    (filter (fun r =>
                               (gop_content_type r =? forum_ctype)
                               && mem_codename (gop_codename r) codenames
                               && mem_id (gop_group r) (groups user))
                            group_object_permissions)) f)
         forum_queryset.

(** The visible-forums set of [_get_hidden_forum_ids]. *)
Definition visible_forums_for (user : User) : list Forum :=
  _get_forums_for_user user ["can_see_forum"; "can_read_forum"]%string.

(** The primary keys of a forum and of all its descendants. *)
Definition subtree_ids (forum : Forum) : list Z :=
  values_list_id (get_descendants forum true).

(** The tree law the propagation relies on: a forum whose key lies in the
    subtree of [g] has its own subtree inside the subtree of [g]. *)
Definition subtrees_nested : Prop :=
  forall g f, In (forum_id f) (subtree_ids g) ->
              incl (subtree_ids f) (subtree_ids g).

(** The test of line 197 for [forum], in words: an ancestor of [forum] is
    not in the visible set, or [forum] itself is not. *)
Definition hidden_for (user : User) (forum : Forum) : Prop :=
  (exists a, In a (get_ancestors forum)
             /\ qs_contains (visible_forums_for user) a = false)
  \/ qs_contains (visible_forums_for user) forum = false.

(** A list of hidden keys that holds the whole subtree of every forum it
    holds. *)
Definition subtree_closed (hidden_forums : list Z) : Prop :=
  forall f, In (forum_id f) hidden_forums ->
            incl (subtree_ids f) hidden_forums.

(** The poll has run out at [now]: it has a duration that is neither
    [None] nor [0], and its creation time plus that many days is earlier
    than [now]. *)
Definition expired (poll : TopicPoll) (now : Z) : Prop :=
  exists d, duration poll = Some d /\ d <> 0
            /\ poll_created poll + d * 86400000000 < now.

(** The same poll, created at another instant. *)
Definition created_at (poll : TopicPoll) (instant : Z) : TopicPoll :=
  {| poll_pk := poll_pk poll; poll_topic := poll_topic poll;
     duration := duration poll; poll_created := instant;
     user_changes := user_changes poll |}.

(** [user] has cast a vote for an option of [poll]. *)
Definition has_voted (poll : TopicPoll) (user : User) : Prop :=
  exists v, In v (poll_votes user)
            /\ option_poll (poll_option v) = poll_pk poll.

(** The first post of the list is one of the most recent. *)
Definition newest_first (posts : list Post) : Prop :=
  match posts with
  | [] => True
  | p :: _ => forall q, In q posts -> post_created q <= post_created p
  end.

(** A post [get_forum_last_post] may return for [forum] and [user]: an
    approved post of the table whose forum is [forum] or one of its
    descendants and, unless [user] is a superuser, is not hidden. *)
Definition last_post_candidate (forum : Forum) (user : User) (p : Post) : Prop :=
  In p post_objects
  /\ approved p = true
  /\ exists f, In f (get_descendants forum true)
               /\ forum_id f = forum_id (topic_forum (post_topic p))
               /\ (is_superuser user = false ->
                   ~ In (forum_id f)
                       (_get_hidden_forum_ids (get_descendants forum true) user)).

End Handler.

(** ** The markup validator, [machina/core/validators.py] *)

Module Validators.

(** The exceptions that can leave [_get_markup_maxlength_validator]. *)
Inductive exn :=
| ImportError
| AttributeError
| ValueError
| TypeError
| ImproperlyConfigured.

Inductive result (A : Type) :=
| Ok (a : A)
| Raise (e : exn).

Arguments Ok {A} a.
Arguments Raise {A} e.

(** [s.rsplit('.', 1)] when it yields two parts: the text before the last
    dot and the text after it; [None] when [s] holds no dot (the list has
    one element). *)
Fixpoint rsplit_dot (s : string) : option (string * string) :=
  match s with
  | EmptyString => None
  | String c rest =>
      match rsplit_dot rest with
      | Some (module, validator) => Some (String c module, validator)
      | None =>
          if Ascii.eqb c "."%char then Some (EmptyString, rest) else None
      end
  end.

Section Markup.

(** A validator instance, whatever the configured class builds. *)
Variable Validator : Type.

(** An attribute of a module, called with the limit value; the call may
    raise. *)
Definition PyCallable : Type := option Z -> result Validator.

(** A module: its attributes by name. *)
Definition PyModule : Type := string -> option PyCallable.

(** The modules that can be imported, by dotted name. *)
Variable sys_modules : string -> option PyModule.

(** The setting [machina_settings.MARKUP_MAX_LENGTH_VALIDATOR]. *)
Variable MARKUP_MAX_LENGTH_VALIDATOR : string.

(** [__import__(module, {}, {}, [validator])]: the module of that name
    ([smart_str] leaves the two parts of the path as they are).
    An empty name is a [ValueError], a module that cannot be found an
    [ImportError]; a name of the from-list that the module lacks is not an
    error of the import. *)
Definition __import__ (module : string) : result PyModule :=
  if String.eqb module EmptyString then Raise ValueError
  else
    match sys_modules module with
    | Some m => Ok m
    | None => Raise ImportError
    end.

(** [getattr(module, name)]. *)
Definition getattr (m : PyModule) (name : string) : result PyCallable :=
  match m name with
  | Some attribute => Ok attribute
  | None => Raise AttributeError
  end.

(** The body of the [try], lines 40-44. *)
Definition resolve_validator (max_length : option Z) : result Validator :=
  let dotted_path := MARKUP_MAX_LENGTH_VALIDATOR in
  match rsplit_dot dotted_path with
  | None => Raise ValueError
  | Some (module, validator) =>
      match __import__ module with
      | Raise e => Raise e
      | Ok m =>
          match getattr m validator with
          | Raise e => Raise e
          | Ok validator => validator max_length
          end
      end
  end.

(** [_get_markup_maxlength_validator], lines 37-50: the handler catches
    [ImportError] and nothing else. *)
Definition _get_markup_maxlength_validator (max_length : option Z)
  : result Validator :=
  match resolve_validator max_length with
  | Raise ImportError => Raise ImproperlyConfigured
  | outcome => outcome
  end.

(** [MarkupMaxLengthValidator(limit_value)]: the instance holds the
    validator it resolved. *)
Record MarkupMaxLengthValidator := {
  validator : Validator
}.

Definition new_MarkupMaxLengthValidator (limit_value : option Z)
  : result MarkupMaxLengthValidator :=
  match _get_markup_maxlength_validator limit_value with
  | Ok v => Ok {| validator := v |}
  | Raise e => Raise e
  end.

End Markup.

End Validators.

(** ** A small board, used to run the handler on concrete inputs

    Forums 1, 2, 3 form a chain (2 is a child of 1, 3 a child of 2);
    forum 4 is a root of its own. *)

Module Example.

Definition forum_tree : ForumTree := {|
  Forum := Z;
  forum_id := fun f => f;
  get_ancestors := fun f =>
    if f =? 2 then [1] else if f =? 3 then [1; 2] else [];
  strict_descendants := fun f =>
    if f =? 1 then [2; 3] else if f =? 2 then [3] else []
|}.

(** The forum of primary key [pk]. *)
Definition forum (pk : Z) : @Forum forum_tree := pk.

Definition day : Z := 86400000000.

Definition admin : User := {|
  user_pk := Some 1; is_superuser := true; is_anonymous := false;
  groups := []; poll_votes := []
|}.

(** Alice has voted in poll 7. *)
Definition alice : User := {|
  user_pk := Some 10; is_superuser := false; is_anonymous := false;
  groups := [100];
  poll_votes := [ {| vote_pk := 1;
                     poll_option := {| option_pk := 1; option_poll := 7 |} |} ]
|}.

Definition bob : User := {|
  user_pk := Some 11; is_superuser := false; is_anonymous := false;
  groups := []; poll_votes := []
|}.

Definition guardian_anonymous : User := {|
  user_pk := Some (-1); is_superuser := false; is_anonymous := false;
  groups := []; poll_votes := []
|}.

Definition user_grants : list ForumUserObjectPermission := [
  {| uop_user := 10; uop_content_type := 5;
     uop_codename := "can_read_forum"; uop_content_object := 2 |};
  {| uop_user := 10; uop_content_type := 5;
     uop_codename := "can_read_forum"; uop_content_object := 3 |};
  {| uop_user := 10; uop_content_type := 5;
     uop_codename := "can_vote_in_polls"; uop_content_object := 1 |};
  {| uop_user := 10; uop_content_type := 5;
     uop_codename := "can_edit_posts"; uop_content_object := 4 |};
  {| uop_user := 11; uop_content_type := 5;
     uop_codename := "can_edit_own_posts"; uop_content_object := 4 |};
  {| uop_user := -1; uop_content_type := 5;
     uop_codename := "can_read_forum"; uop_content_object := 4 |}
].

Definition group_grants : list ForumGroupObjectPermission := [
  {| gop_group := 100; gop_content_type := 5;
     gop_codename := "can_see_forum"; gop_content_object := 4 |}
].

(** A permission checker that reads the two grant tables. *)
Definition table_has_perm (user : User) (codename : string) (forum : Z) : bool :=
  existsb (fun r => pk_matches (uop_user r) (user_pk user)
                    && String.eqb (uop_codename r) codename
                    && (uop_content_object r =? forum)) user_grants
  || existsb (fun r => mem_id (gop_group r) (groups user)
                       && String.eqb (gop_codename r) codename
                       && (gop_content_object r =? forum)) group_grants.

Definition topic_in (forum : Z) : Topic (tree := forum_tree) :=
  {| topic_forum := forum : @Forum forum_tree |}.

Definition post (pk forum : Z) (by_ : User) (is_approved : bool) (at_ : Z)
  : Post (tree := forum_tree) :=
  {| post_pk := pk; post_topic := topic_in forum; poster := by_;
     approved := is_approved; post_created := at_ |}.

Definition posts : list (Post (tree := forum_tree)) := [
  post 1 4 alice true 100;
  post 2 4 bob true 200;
  post 3 4 bob false 300;
  post 4 2 alice true 400
].

Definition board : Store (tree := forum_tree) := {|
  forum_queryset := [1; 2; 3; 4] : list (@Forum forum_tree);
  forum_ctype := 5;
  user_object_permissions := user_grants;
  group_object_permissions := group_grants;
  post_objects := posts;
  DEFAULT_AUTHENTICATED_USER_FORUM_PERMISSIONS :=
    ["can_see_forum"; "can_read_forum"]%string;
  get_anonymous_user := guardian_anonymous;
  has_perm := table_has_perm
|}.

(** Poll 7 runs for five days, poll 8 has duration 0 and poll 9 none; all
    were created at instant 0 in a topic of forum 1. *)
Definition poll (pk : Z) (d : option Z) (changes : bool)
  : TopicPoll (tree := forum_tree) :=
  {| poll_pk := pk; poll_topic := topic_in 1; duration := d;
     poll_created := 0; user_changes := changes |}.

(** A superuser who has voted in poll 7. *)
Definition moderator : User := {|
  user_pk := Some 2; is_superuser := true; is_anonymous := false;
  groups := [];
  poll_votes := [ {| vote_pk := 2;
                     poll_option := {| option_pk := 2; option_poll := 7 |} |} ]
|}.

(** An anonymous visitor: no row, no group, no vote. *)
Definition visitor : User := {|
  user_pk := None; is_superuser := false; is_anonymous := true;
  groups := []; poll_votes := []
|}.

(** An installation whose only importable module is
    [django.core.validators], with the single attribute
    [MaxLengthValidator]. *)
Inductive max_length_validator :=
| MaxLengthValidator (limit_value : option Z).

Definition installed (module : string)
  : option (Validators.PyModule max_length_validator) :=
  if String.eqb module "django.core.validators" then
    Some (fun attribute =>
            if String.eqb attribute "MaxLengthValidator"
            then Some (fun limit_value =>
                         Validators.Ok (MaxLengthValidator limit_value))
            else None)
  else None.

End Example.

(** ** Further vocabulary of the statements *)

Section FilterVocabulary.
Context {tree : ForumTree} {store : Store}.

(** Every ancestor of [forum] is in the visible set of [user]. *)
Definition all_ancestors_visible (user : User) (forum : Forum) : Prop :=
  forall a, In a (get_ancestors forum) ->
            qs_contains (visible_forums_for user) a = true.

(** The tree law that ties ancestors to descendants: a forum [d] whose key
    lies in the subtree of [g] has the key of [g] or [g] among its
    ancestors, and every ancestor of [g] among its ancestors. *)
Definition ancestors_follow_subtrees : Prop :=
  forall g d, In (forum_id d) (subtree_ids g) ->
              (forum_id d = forum_id g
               \/ In (forum_id g) (values_list_id (get_ancestors d)))
              /\ incl (values_list_id (get_ancestors g))
                      (values_list_id (get_ancestors d)).

(** The key of [forum] is the key of a row of the forum table. *)
Definition is_forum_row (forum : Forum) : Prop :=
  In (forum_id forum) (values_list_id forum_queryset).

End FilterVocabulary.

(** ['.' in s]. *)
Fixpoint has_dot (s : string) : bool :=
  match s with
  | EmptyString => false
  | String c rest => Ascii.eqb c "."%char || has_dot rest
  end.

(** [module + '.' + name]. *)
Definition dotted (module name : string) : string :=
  (module ++ String "."%char name)%string.

(** ** Import-time fallbacks, [machina/core/compat.py] *)

Module Compat.

(** [try: body except ImportError: handler]. *)
Definition except_ImportError {A : Type}
  (body handler : Validators.result A) : Validators.result A :=
  match body with
  | Validators.Raise Validators.ImportError => handler
  | outcome => outcome
  end.

(** Sequencing of two statements of the module: the second runs when the
    first has not raised. *)
Definition and_then {A B : Type}
  (first : Validators.result A) (next : A -> Validators.result B)
  : Validators.result B :=
  match first with
  | Validators.Ok a => next a
  | Validators.Raise e => Validators.Raise e
  end.

Section Module_.

(** The objects imports bind. *)
Variable obj : Type.

(** [from module import name]: the object, when the module can be imported
    and holds the name. *)
Variable from_import : string -> string -> option obj.

(** [import module]: the module, when it can be imported. *)
Variable import_module : string -> option obj.

(** [settings.AUTH_USER_MODEL], when the settings define it. *)
Variable settings_AUTH_USER_MODEL : option string.

Definition from_ (module name : string) : Validators.result obj :=
  match from_import module name with
  | Some o => Validators.Ok o
  | None => Validators.Raise Validators.ImportError
  end.

Definition import_ (module : string) : Validators.result obj :=
  match import_module module with
  | Some o => Validators.Ok o
  | None => Validators.Raise Validators.ImportError
  end.

(** Lines 12-23: Pillow first, then the older [Image] module, then
    [ImproperlyConfigured]. *)
Definition bind_PILImage : Validators.result obj :=
  except_ImportError (from_ "PIL" "Image")
    (except_ImportError (import_ "Image")
       (Validators.Raise Validators.ImproperlyConfigured)).

(** Lines 27-30. *)
Definition bind_slugify : Validators.result obj :=
  except_ImportError (from_ "django.utils.text" "slugify")
    (from_ "django.template.defaultfilters" "slugify").

(** Lines 34-37. *)
Definition bind_force_bytes : Validators.result obj :=
  except_ImportError (from_ "django.utils.encoding" "force_bytes")
    (from_ "django.utils.encoding" "smart_str").

(** Line 42: [getattr(settings, 'AUTH_USER_MODEL', 'auth.User')]. *)
Definition bind_AUTH_USER_MODEL : string :=
  match settings_AUTH_USER_MODEL with
  | Some model => model
  | None => "auth.User"%string
  end.

(** What the name [get_user_model] is bound to: Django's function, or the
    lambda that returns the [User] model. *)
Inductive get_user_model_binding :=
| Imported (function : obj)
| LambdaReturning (User : obj).

(** Lines 46-50. *)
Definition bind_get_user_model : Validators.result get_user_model_binding :=
  except_ImportError
    (and_then (from_ "django.contrib.auth" "get_user_model")
       (fun f => Validators.Ok (Imported f)))
    (and_then (from_ "django.contrib.auth.models" "User")
       (fun User => Validators.Ok (LambdaReturning User))).

(** The names the module defines once it has run. *)
Record namespace := {
  PILImage : obj;
  slugify : obj;
  force_bytes : obj;
  AUTH_USER_MODEL : string;
  get_user_model : get_user_model_binding
}.

(** The module body, top to bottom. *)
Definition load : Validators.result namespace :=
  and_then bind_PILImage (fun image =>
  and_then bind_slugify (fun slug =>
  and_then bind_force_bytes (fun bytes =>
  let model := bind_AUTH_USER_MODEL in
  and_then bind_get_user_model (fun getter =>
  Validators.Ok {| PILImage := image; slugify := slug; force_bytes := bytes;
                   AUTH_USER_MODEL := model; get_user_model := getter |})))).

(** The first of two sources that is available. *)
Definition first_of (primary fallback : option obj) : option obj :=
  match primary with
  | Some o => Some o
  | None => fallback
  end.

End Module_.

End Compat.

(** ** An old installation, used to run the import-time fallbacks

    Pillow is installed; [django.utils.encoding] has [smart_str] but no
    [force_bytes], and [django.contrib.auth] has no [get_user_model]; the
    settings define no [AUTH_USER_MODEL].  An object is named by where it
    comes from. *)

Module OldInstallation.

Definition provides (module name : string) : bool :=
  (String.eqb module "PIL" && String.eqb name "Image")
  || (String.eqb module "django.utils.text" && String.eqb name "slugify")
  || (String.eqb module "django.template.defaultfilters"
      && String.eqb name "slugify")
  || (String.eqb module "django.utils.encoding" && String.eqb name "smart_str")
  || (String.eqb module "django.contrib.auth.models" && String.eqb name "User").

Definition from_import (module name : string) : option string :=
  if provides module name then Some (dotted module name) else None.

Definition import_module (module : string) : option string :=
  if String.eqb module "PIL" then Some module else None.

End OldInstallation.

(** * Properties of the handler *)

Section HandlerFacts.
Context {tree : ForumTree} {store : Store}.

(** ** Membership and emptiness tests *)

Lemma mem_id_In (x : Z) (ids : list Z) : mem_id x ids = true <-> In x ids.
Proof.
  unfold mem_id. rewrite existsb_exists. split.
  - intros [y [Hy Heq]]. apply Z.eqb_eq in Heq. now subst.
  - intros H. exists x. split; [assumption | apply Z.eqb_refl].
Qed.

Lemma mem_codename_In (c : string) (cs : list string) :
  mem_codename c cs = true <-> In c cs.
Proof.
  unfold mem_codename. rewrite existsb_exists. split.
  - intros [y [Hy Heq]]. apply String.eqb_eq in Heq. now subst.
  - intros H. exists c. split; [assumption | apply String.eqb_refl].
Qed.

Lemma issubset_incl (xs ys : list string) :
  issubset xs ys = true <-> incl xs ys.
Proof.
  unfold issubset, incl. rewrite forallb_forall. split.
  - intros H c Hc. apply mem_codename_In. now apply H.
  - intros H c Hc. apply mem_codename_In. now apply H.
Qed.

Lemma qs_contains_In_id (qs : list Forum) (forum : Forum) :
  qs_contains qs forum = true <-> In (forum_id forum) (values_list_id qs).
Proof.
  unfold qs_contains, values_list_id. rewrite existsb_exists, in_map_iff.
  split; intros [f [H1 H2]]; exists f.
  - apply Z.eqb_eq in H2. now split.
  - split; [assumption | now apply Z.eqb_eq].
Qed.

Lemma exists_false_nil {A : Type} (l : list A) : exists_ l = false <-> l = [].
Proof. destruct l; simpl; split; congruence. Qed.

Lemma exists_true_In {A : Type} (l : list A) :
  exists_ l = true <-> exists x, In x l.
Proof.
  destruct l as [| a l]; simpl; split.
  - discriminate.
  - intros [x []].
  - intros _. exists a. now left.
  - reflexivity.
Qed.

(** ** Polls *)

Lemma poll_closed_expired (poll : TopicPoll) (now : Z) :
  poll_closed poll now = true <-> expired poll now.
Proof.
  unfold poll_closed, expired, timedelta_days.
  destruct (duration poll) as [d |].
  - destruct (Z.eqb_spec d 0) as [Hd | Hd]; simpl.
    + split; [discriminate |].
      intros [d' [Heq [Hnz _]]]. injection Heq as <-. contradiction.
    + rewrite Z.ltb_lt. split.
      * intros H. exists d. auto.
      * intros [d' [Heq [_ Hlt]]]. injection Heq as <-. assumption.
  - split; [discriminate |]. intros [d [Heq _]]. discriminate.
Qed.

Lemma poll_open_not_expired (poll : TopicPoll) (now : Z) :
  poll_closed poll now = false <-> ~ expired poll now.
Proof.
  rewrite <- poll_closed_expired.
  destruct (poll_closed poll now); split; intros H; congruence.
Qed.

Lemma user_votes_has_voted (poll : TopicPoll) (user : User) :
  exists_ (user_votes poll user) = true <-> has_voted poll user.
Proof.
  rewrite exists_true_In. unfold user_votes, has_voted.
  split; intros [v Hv]; exists v.
  - apply filter_In in Hv. destruct Hv as [Hin Heq].
    apply Z.eqb_eq in Heq. now split.
  - apply filter_In. destruct Hv as [Hin Heq].
    split; [assumption | now apply Z.eqb_eq].
Qed.

Lemma superuser_basic_check (forum : Forum) (user : User) (permission : string) :
  is_superuser user = true ->
  _perform_basic_permission_check forum user permission = true.
Proof.
  intros H. unfold _perform_basic_permission_check. now rewrite H.
Qed.

(** ** Post edition and deletion *)

(** The shape of both decisions: superuser, or author with the "own"
    grant, or the "any" grant. *)
Lemma own_or_any_true (superuser author own any : bool) :
  superuser || (author && own) || any = true
  <-> superuser = true \/ (author = true /\ own = true) \/ any = true.
Proof.
  rewrite !orb_true_iff, andb_true_iff. tauto.
Qed.

(** C6. [can_edit_post] (resp. [can_delete_post]) returns [True] exactly
    when the user is a superuser, or is the original poster and holds
    [can_edit_own_posts] (resp. [can_delete_own_posts]) on the forum of the
    post's topic, or holds [can_edit_posts] (resp. [can_delete_posts]) on
    that forum.  In particular the poster with only the "any" grant is
    permitted, and among users who are not superusers the poster with
    neither grant and a non-poster with only the "own" grant are denied. *)
Theorem can_edit_and_delete_post_spec (post : Post) (user : User) :
  (can_edit_post post user = true <->
     is_superuser user = true
     \/ (user_eqb (poster post) user = true
         /\ has_perm user "can_edit_own_posts"
                      (topic_forum (post_topic post)) = true)
     \/ has_perm user "can_edit_posts" (topic_forum (post_topic post)) = true)
  /\ (can_delete_post post user = true <->
     is_superuser user = true
     \/ (user_eqb (poster post) user = true
         /\ has_perm user "can_delete_own_posts"
                      (topic_forum (post_topic post)) = true)
     \/ has_perm user "can_delete_posts" (topic_forum (post_topic post)) = true)
  /\ (user_eqb (poster post) user = true ->
      (has_perm user "can_edit_own_posts" (topic_forum (post_topic post)) = false ->
       has_perm user "can_edit_posts" (topic_forum (post_topic post)) = true ->
       can_edit_post post user = true)
      /\ (has_perm user "can_delete_own_posts" (topic_forum (post_topic post)) = false ->
          has_perm user "can_delete_posts" (topic_forum (post_topic post)) = true ->
          can_delete_post post user = true))
  /\ (is_superuser user = false ->
      (has_perm user "can_edit_own_posts" (topic_forum (post_topic post)) = false ->
       has_perm user "can_edit_posts" (topic_forum (post_topic post)) = false ->
       can_edit_post post user = false)
      /\ (has_perm user "can_delete_own_posts" (topic_forum (post_topic post)) = false ->
          has_perm user "can_delete_posts" (topic_forum (post_topic post)) = false ->
          can_delete_post post user = false))
  /\ (is_superuser user = false ->
      user_eqb (poster post) user = false ->
      (has_perm user "can_edit_posts" (topic_forum (post_topic post)) = false ->
       can_edit_post post user = false)
      /\ (has_perm user "can_delete_posts" (topic_forum (post_topic post)) = false ->
          can_delete_post post user = false)).
Proof.
  unfold can_edit_post, can_delete_post.
  split; [apply own_or_any_true | split; [apply own_or_any_true |]].
  split; [| split].
  - intros _. split; intros _ Hany; rewrite Hany; apply orb_true_r.
  - intros Hsu. split; intros Hown Hany; rewrite Hsu, Hown, Hany;
      now rewrite andb_false_r.
  - intros Hsu Hposter. split; intros Hany; now rewrite Hsu, Hposter, Hany.
Qed.

(** ** Superusers *)

(** C2, as the code has it.  For a superuser every basic check,
    [can_edit_post] and [can_delete_post] return [True].  [can_vote_in_poll]
    returns [True] for a superuser exactly when the poll has not run out and
    the superuser either has not voted in it yet or the poll allows vote
    changes. *)
Theorem superuser_checks (user : User) :
  is_superuser user = true ->
  (forall forum,
      can_read_forum forum user = true
      /\ can_add_topic forum user = true
      /\ can_add_stickies forum user = true
      /\ can_add_announcements forum user = true
      /\ can_post_without_approval forum user = true
      /\ can_create_polls forum user = true
      /\ can_attach_files forum user = true
      /\ can_download_files forum user = true)
  /\ (forall topic, can_add_post topic user = true)
  /\ (forall post,
        can_edit_post post user = true /\ can_delete_post post user = true)
  /\ (forall poll now,
        can_vote_in_poll poll user now = true <->
        ~ expired poll now
        /\ (has_voted poll user -> user_changes poll = true)).
Proof.
  intros Hsu. split; [| split; [| split]].
  - intros forum.
    unfold can_read_forum, can_add_topic, can_add_stickies,
      can_add_announcements, can_post_without_approval, can_create_polls,
      can_attach_files, can_download_files.
    repeat split; now apply superuser_basic_check.
  - intros topic. unfold can_add_post. now apply superuser_basic_check.
  - intros post. unfold can_edit_post, can_delete_post. now rewrite Hsu.
  - intros poll now. unfold can_vote_in_poll.
    rewrite superuser_basic_check by assumption.
    rewrite <- poll_open_not_expired, <- user_votes_has_voted.
    destruct (poll_closed poll now).
    + split; [discriminate | intros [Hopen _]; discriminate].
    + destruct (exists_ (user_votes poll user)); simpl.
      * split; [intros H; now split | intros [_ H]; now apply H].
      * split; [intros _; split; [reflexivity | discriminate] | reflexivity].
Qed.

(** ** Poll voting *)

(** C4, as the code has it.  A poll whose duration is neither [None] nor
    [0] and whose creation time plus that many days is earlier than the
    current time denies voting to every user, whatever the grants. *)
Theorem expired_poll_denies_vote
  (poll : TopicPoll) (user : User) (now d : Z) :
  duration poll = Some d ->
  d <> 0 ->
  poll_created poll + d * 86400000000 < now ->
  can_vote_in_poll poll user now = false.
Proof.
  intros Hd Hnz Hlt.
  assert (Hclosed : poll_closed poll now = true).
  { apply poll_closed_expired. exists d. auto. }
  unfold can_vote_in_poll. now rewrite Hclosed.
Qed.

(** C5.  When the poll has not run out and the user has already cast a vote
    in it, [can_vote_in_poll] returns the conjunction of the basic
    [can_vote_in_polls] check and the poll's [user_changes] flag: it is
    [True] only if both hold, and a permitted result is turned into [False]
    when [user_changes] is [False]. *)
Theorem second_vote_needs_user_changes
  (poll : TopicPoll) (user : User) (now : Z) :
  ~ expired poll now ->
  has_voted poll user ->
  can_vote_in_poll poll user now =
    _perform_basic_permission_check
      (topic_forum (poll_topic poll)) user "can_vote_in_polls"
    && user_changes poll
  /\ (can_vote_in_poll poll user now = true ->
      _perform_basic_permission_check
        (topic_forum (poll_topic poll)) user "can_vote_in_polls" = true
      /\ user_changes poll = true)
  /\ (user_changes poll = false -> can_vote_in_poll poll user now = false).
Proof.
  intros Hopen Hvoted.
  apply poll_open_not_expired in Hopen.
  apply user_votes_has_voted in Hvoted.
  assert (Heq : can_vote_in_poll poll user now =
                _perform_basic_permission_check
                  (topic_forum (poll_topic poll)) user "can_vote_in_polls"
                && user_changes poll).
  { unfold can_vote_in_poll. rewrite Hopen, Hvoted. simpl.
    destruct (_perform_basic_permission_check _ _ _); reflexivity. }
  split; [exact Heq |]. split.
  - rewrite Heq. intros H. now apply andb_true_iff in H.
  - intros Hch. rewrite Heq, Hch. apply andb_false_r.
Qed.

(** C9.  For a poll whose duration is [None] or [0], [can_vote_in_poll]
    makes no expiry check: the poll has never run out, the result is the
    permission decision alone, and it is the same for every creation time
    and every reading of the clock. *)
Theorem falsy_duration_never_expires
  (poll : TopicPoll) (user : User) (now : Z) :
  duration poll = None \/ duration poll = Some 0 ->
  ~ expired poll now
  /\ can_vote_in_poll poll user now =
     (if exists_ (user_votes poll user)
         && _perform_basic_permission_check
              (topic_forum (poll_topic poll)) user "can_vote_in_polls"
      then user_changes poll
      else _perform_basic_permission_check
             (topic_forum (poll_topic poll)) user "can_vote_in_polls")
  /\ (forall instant now',
        can_vote_in_poll (created_at poll instant) user now' =
        can_vote_in_poll poll user now).
Proof.
  intros Hd.
  assert (Hopen : forall p t, duration p = duration poll -> poll_closed p t = false).
  { intros p t Hp. unfold poll_closed. rewrite Hp.
    destruct Hd as [-> | ->]; reflexivity. }
  split; [| split].
  - apply poll_open_not_expired. now apply Hopen.
  - unfold can_vote_in_poll. now rewrite Hopen.
  - intros instant now'. unfold can_vote_in_poll.
    rewrite !Hopen by reflexivity. reflexivity.
Qed.

(** ** The forums a user holds grants on *)

Lemma pk_matches_eq (row_pk : Z) (pk : option Z) :
  pk_matches row_pk pk = true <-> pk = Some row_pk.
Proof.
  destruct pk as [k |]; simpl.
  - rewrite Z.eqb_eq. split; intros H; [now subst | now injection H].
  - split; discriminate.
Qed.

Lemma user_values_grant (user : User) (codenames : list string) (forum : Forum) :
  pk__in
    (map uop_content_object
       (filter (fun r =>
                  pk_matches (uop_user r) (user_pk user)
                  && (uop_content_type r =? forum_ctype)
                  && mem_codename (uop_codename r) codenames)
               user_object_permissions)) forum = true
  <-> user_grant user codenames forum.
Proof.
  unfold pk__in, user_grant. rewrite mem_id_In, in_map_iff.
  split.
  - intros [r [Hobj Hr]]. apply filter_In in Hr. destruct Hr as [Hin Hr].
    apply andb_true_iff in Hr. destruct Hr as [Hr Hcode].
    apply andb_true_iff in Hr. destruct Hr as [Hpk Hct].
    exists r. repeat split.
    + assumption.
    + now apply pk_matches_eq.
    + now apply Z.eqb_eq.
    + now apply mem_codename_In.
    + assumption.
  - intros [r [Hin [Hpk [Hct [Hcode Hobj]]]]].
    exists r. split; [assumption |]. apply filter_In. split; [assumption |].
    apply pk_matches_eq in Hpk. apply Z.eqb_eq in Hct.
    apply mem_codename_In in Hcode. now rewrite Hpk, Hct, Hcode.
Qed.

Lemma group_values_grant (user : User) (codenames : list string) (forum : Forum) :
  pk__in
    (map gop_content_object
       (filter (fun r =>
                  (gop_content_type r =? forum_ctype)
                  && mem_codename (gop_codename r) codenames
                  && mem_id (gop_group r) (groups user))
               group_object_permissions)) forum = true
  <-> group_grant user codenames forum.
Proof.
  unfold pk__in, group_grant. rewrite mem_id_In, in_map_iff.
  split.
  - intros [r [Hobj Hr]]. apply filter_In in Hr. destruct Hr as [Hin Hr].
    apply andb_true_iff in Hr. destruct Hr as [Hr Hgroup].
    apply andb_true_iff in Hr. destruct Hr as [Hct Hcode].
    exists r. repeat split.
    + assumption.
    + now apply mem_id_In.
    + now apply Z.eqb_eq.
    + now apply mem_codename_In.
    + assumption.
  - intros [r [Hin [Hgroup [Hct [Hcode Hobj]]]]].
    exists r. split; [assumption |]. apply filter_In. split; [assumption |].
    apply mem_id_In in Hgroup. apply Z.eqb_eq in Hct.
    apply mem_codename_In in Hcode. now rewrite Hgroup, Hct, Hcode.
Qed.

Lemma granted_forums_In (user : User) (codenames : list string) (forum : Forum) :
  In forum (granted_forums user codenames)
  <-> In forum forum_queryset /\ granted user codenames forum.
Proof.
  unfold granted_forums, granted. rewrite filter_In, orb_true_iff.
  now rewrite user_values_grant, group_values_grant.
Qed.

Lemma get_forums_for_user_unfold (user : User) (codenames : list string) :
  is_superuser user = false ->
  _get_forums_for_user user codenames =
    if negb (exists_ (granted_forums (lookup_identity user) codenames))
       && issubset codenames DEFAULT_AUTHENTICATED_USER_FORUM_PERMISSIONS
    then forum_queryset
    else granted_forums (lookup_identity user) codenames.
Proof.
  intros Hsu. unfold _get_forums_for_user. rewrite Hsu. reflexivity.
Qed.

(** C3.  For a user who is not a superuser, with the identity whose grants
    are looked up (the user, or guardian's anonymous user for an anonymous
    visitor): when no forum carries a direct or group grant for a codename
    of [P] and [P] is included in the default authenticated-user forum
    permissions, [_get_forums_for_user] returns all the forums; otherwise
    it returns exactly the forums that carry such a grant. *)
Theorem get_forums_for_user_spec (user : User) (P : list string) :
  is_superuser user = false ->
  ((forall f, In f forum_queryset -> ~ granted (lookup_identity user) P f) ->
   incl P DEFAULT_AUTHENTICATED_USER_FORUM_PERMISSIONS ->
   _get_forums_for_user user P = forum_queryset)
  /\ ((exists f, In f forum_queryset /\ granted (lookup_identity user) P f)
      \/ ~ incl P DEFAULT_AUTHENTICATED_USER_FORUM_PERMISSIONS ->
      forall f, In f (_get_forums_for_user user P)
                <-> In f forum_queryset /\ granted (lookup_identity user) P f)
  /\ (is_anonymous user = false -> lookup_identity user = user).
Proof.
  intros Hsu. rewrite (get_forums_for_user_unfold _ _ Hsu).
  split; [| split].
  - intros Hnone Hsub.
    assert (Hempty : granted_forums (lookup_identity user) P = []).
    { destruct (granted_forums (lookup_identity user) P) as [| f l] eqn:Hg;
        [reflexivity |].
      exfalso. assert (Hf : In f (granted_forums (lookup_identity user) P))
        by (rewrite Hg; now left).
      apply granted_forums_In in Hf. destruct Hf as [Hin Hgr].
      exact (Hnone f Hin Hgr). }
    apply issubset_incl in Hsub. rewrite Hempty, Hsub. reflexivity.
  - intros Hcase f.
    assert (Hcond : negb (exists_ (granted_forums (lookup_identity user) P))
                    && issubset P DEFAULT_AUTHENTICATED_USER_FORUM_PERMISSIONS
                    = false).
    { destruct Hcase as [[g [Hin Hgr]] | Hnsub].
      - assert (Hex : exists_ (granted_forums (lookup_identity user) P) = true).
        { apply exists_true_In. exists g. apply granted_forums_In. now split. }
        now rewrite Hex.
      - destruct (issubset P DEFAULT_AUTHENTICATED_USER_FORUM_PERMISSIONS)
          eqn:Hsub; [| apply andb_false_r].
        exfalso. apply Hnsub. now apply issubset_incl. }
    rewrite Hcond. apply granted_forums_In.
  - intros Hanon. unfold lookup_identity. now rewrite Hanon.
Qed.

(** ** Hidden-forum propagation *)

Lemma ancestors_visible_false (visible ancestors : list Forum) :
  ancestors_visible visible ancestors = false
  <-> exists a, In a ancestors /\ qs_contains visible a = false.
Proof.
  induction ancestors as [| a rest IH]; simpl.
  - split; [discriminate | intros [a [[] _]]].
  - destruct (qs_contains visible a) eqn:Ha; simpl.
    + rewrite IH. split.
      * intros [b [Hb Hv]]. exists b. auto.
      * intros [b [[Hb | Hb] Hv]]; [subst b; congruence | exists b; auto].
    + split; [| reflexivity]. intros _. exists a. auto.
Qed.

Lemma hide_forum_test (user : User) (forum : Forum) :
  negb (ancestors_visible (visible_forums_for user) (get_ancestors forum))
  || negb (qs_contains (visible_forums_for user) forum) = true
  <-> hidden_for user forum.
Proof.
  unfold hidden_for.
  rewrite orb_true_iff, !negb_true_iff, ancestors_visible_false.
  reflexivity.
Qed.

Lemma subtree_ids_self (forum : Forum) : In (forum_id forum) (subtree_ids forum).
Proof. unfold subtree_ids, values_list_id. simpl. now left. Qed.

Lemma subtree_ids_descendant (forum d : Forum) :
  In d (strict_descendants forum) -> In (forum_id d) (subtree_ids forum).
Proof.
  intros Hd. unfold subtree_ids, values_list_id. simpl. right.
  now apply in_map.
Qed.

(** A turn of the loop only appends. *)
Lemma hide_forum_grows (visible : list Forum) (hidden : list Z) (forum : Forum) :
  incl hidden (hide_forum visible hidden forum).
Proof.
  unfold hide_forum.
  destruct (negb (mem_id (forum_id forum) hidden)); [| apply incl_refl].
  destruct (negb (ancestors_visible visible (get_ancestors forum))
            || negb (qs_contains visible forum)); [| apply incl_refl].
  apply incl_appl, incl_refl.
Qed.

Lemma hidden_loop_grows (visible forums : list Forum) (hidden : list Z) :
  incl hidden (fold_left (hide_forum visible) forums hidden).
Proof.
  revert hidden. induction forums as [| forum rest IH]; intros hidden; simpl.
  - apply incl_refl.
  - eapply incl_tran; [apply hide_forum_grows | apply IH].
Qed.

(** A turn of the loop keeps the list closed under subtrees. *)
Lemma hide_forum_closed (visible : list Forum) (hidden : list Z) (forum : Forum) :
  subtrees_nested ->
  subtree_closed hidden ->
  subtree_closed (hide_forum visible hidden forum).
Proof.
  intros Hnested Hclosed. unfold hide_forum.
  destruct (negb (mem_id (forum_id forum) hidden)); [| assumption].
  destruct (negb (ancestors_visible visible (get_ancestors forum))
            || negb (qs_contains visible forum)); [| assumption].
  intros f Hf. apply in_app_or in Hf. destruct Hf as [Hf | Hf].
  - apply incl_appl. now apply Hclosed.
  - apply incl_appr. now apply Hnested.
Qed.

(** The turn of a hidden forum leaves its whole subtree in the list. *)
Lemma hide_forum_covers (user : User) (hidden : list Z) (forum : Forum) :
  subtree_closed hidden ->
  hidden_for user forum ->
  incl (subtree_ids forum) (hide_forum (visible_forums_for user) hidden forum).
Proof.
  intros Hclosed Hhidden. unfold hide_forum.
  destruct (mem_id (forum_id forum) hidden) eqn:Hmem; simpl.
  - apply Hclosed. now apply mem_id_In.
  - apply hide_forum_test in Hhidden. rewrite Hhidden.
    apply incl_appr, incl_refl.
Qed.

Lemma hidden_loop_covers (user : User) (forums : list Forum) (hidden : list Z)
  (forum : Forum) :
  subtrees_nested ->
  subtree_closed hidden ->
  In forum forums ->
  hidden_for user forum ->
  incl (subtree_ids forum)
       (fold_left (hide_forum (visible_forums_for user)) forums hidden).
Proof.
  intros Hnested Hclosed Hin Hhidden. revert hidden Hclosed.
  induction forums as [| g rest IH]; intros hidden Hclosed; simpl.
  - destruct Hin.
  - destruct Hin as [-> | Hin].
    + eapply incl_tran; [| apply hidden_loop_grows].
      now apply hide_forum_covers.
    + apply IH; [assumption |]. now apply hide_forum_closed.
Qed.

Lemma hidden_ids_cover_subtree (user : User) (forums : list Forum) (forum : Forum) :
  subtrees_nested ->
  In forum forums ->
  hidden_for user forum ->
  incl (subtree_ids forum) (_get_hidden_forum_ids forums user).
Proof.
  intros Hnested Hin Hhidden. unfold _get_hidden_forum_ids.
  apply (hidden_loop_covers user forums [] forum); try assumption.
  intros f [].
Qed.

(** The turn of a hidden forum leaves its own key in the list, in any
    tree. *)
Lemma hide_forum_marks (user : User) (hidden : list Z) (forum : Forum) :
  hidden_for user forum ->
  In (forum_id forum) (hide_forum (visible_forums_for user) hidden forum).
Proof.
  intros Hhidden. unfold hide_forum.
  destruct (mem_id (forum_id forum) hidden) eqn:Hmem; simpl.
  - now apply mem_id_In.
  - apply hide_forum_test in Hhidden. rewrite Hhidden.
    apply in_or_app. right. apply subtree_ids_self.
Qed.

Lemma hidden_ids_mark_forum (user : User) (forums : list Forum) (forum : Forum) :
  In forum forums ->
  hidden_for user forum ->
  In (forum_id forum) (_get_hidden_forum_ids forums user).
Proof.
  intros Hin Hhidden. unfold _get_hidden_forum_ids.
  fold (visible_forums_for user). generalize (@nil Z) as hidden.
  induction forums as [| g rest IH]; intros hidden; simpl.
  - destruct Hin.
  - destruct Hin as [-> | Hin].
    + apply hidden_loop_grows. now apply hide_forum_marks.
    + now apply IH.
Qed.

(** C1.  When an ancestor [A] of a candidate forum [F] is not in the
    visible set computed for the user (permissions [can_see_forum] /
    [can_read_forum]), the hidden-id list returned by
    [_get_hidden_forum_ids] holds the id of [F] and, the subtrees of the
    tree being nested, the id of every descendant of [F], whatever the
    depth of [A] above [F] and whatever [F]'s own grants. *)
Theorem hidden_ancestor_hides_subtree
  (user : User) (forums : list Forum) (F A : Forum) :
  In F forums ->
  In A (get_ancestors F) ->
  qs_contains (_get_forums_for_user user ["can_see_forum"; "can_read_forum"]%string)
              A = false ->
  In (forum_id F) (_get_hidden_forum_ids forums user)
  /\ (subtrees_nested ->
      forall D, In D (strict_descendants F) ->
                In (forum_id D) (_get_hidden_forum_ids forums user)).
Proof.
  intros HF HA Hinvisible.
  assert (Hhidden : hidden_for user F) by (left; exists A; now split).
  split.
  - now apply hidden_ids_mark_forum.
  - intros Hnested D HD.
    apply (hidden_ids_cover_subtree user forums F Hnested HF Hhidden).
    now apply subtree_ids_descendant.
Qed.

(** C10.  In a tree whose subtrees are nested: when a candidate forum is
    hidden (an ancestor or the forum itself is not in the visible set), the
    id of every descendant of it is in the list returned by
    [_get_hidden_forum_ids], whether or not that descendant is one of the
    candidates; the list may so hold ids that are not in the input. *)
Theorem hidden_ids_reach_beyond_candidates
  (user : User) (forums : list Forum) (F D : Forum) :
  subtrees_nested ->
  In F forums ->
  hidden_for user F ->
  In D (strict_descendants F) ->
  In (forum_id D) (_get_hidden_forum_ids forums user).
Proof.
  intros Hnested HF Hhidden HD.
  apply (hidden_ids_cover_subtree user forums F Hnested HF Hhidden).
  now apply subtree_ids_descendant.
Qed.

(** ** Last visible post *)

Lemma insert_by_created_In (p q : Post) (sorted : list Post) :
  In q (insert_by_created p sorted) <-> q = p \/ In q sorted.
Proof.
  induction sorted as [| r rest IH]; simpl.
  - split; intros [H | H]; auto.
  - destruct (post_created r <? post_created p); simpl.
    + split; intros [H | H]; auto.
    + rewrite IH. split; intros H; tauto || (destruct H as [H | [H | H]]; auto).
Qed.

Lemma order_by_created_desc_In (q : Post) (posts : list Post) :
  In q (order_by_created_desc posts) <-> In q posts.
Proof.
  induction posts as [| p rest IH]; simpl.
  - reflexivity.
  - rewrite insert_by_created_In, IH. split; intros [H | H]; auto.
Qed.

Lemma insert_by_created_newest_first (p : Post) (sorted : list Post) :
  newest_first sorted -> newest_first (insert_by_created p sorted).
Proof.
  destruct sorted as [| r rest]; simpl.
  - intros _ q [<- | []]. lia.
  - intros Hr. destruct (Z.ltb_spec (post_created r) (post_created p)) as [Hlt | Hge].
    + simpl. intros q [<- | Hq]; [lia |].
      specialize (Hr q Hq). lia.
    + simpl. intros q [<- | Hq]; [lia |].
      apply insert_by_created_In in Hq. destruct Hq as [-> | Hq]; [lia |].
      apply Hr. now right.
Qed.

Lemma order_by_created_desc_newest_first (posts : list Post) :
  newest_first (order_by_created_desc posts).
Proof.
  induction posts as [| p rest IH]; simpl.
  - exact I.
  - now apply insert_by_created_newest_first.
Qed.

(** The posts [get_forum_last_post] orders are the candidates. *)
Lemma last_post_filter (forum : Forum) (user : User) (p : Post) :
  In p
    (filter
       (fun p =>
          approved p
          && qs_contains
               (exclude_id_in
                  (if negb (is_superuser user)
                   then _get_hidden_forum_ids (get_descendants forum true) user
                   else [])
                  (get_descendants forum true))
               (topic_forum (post_topic p)))
       post_objects)
  <-> last_post_candidate forum user p.
Proof.
  unfold last_post_candidate.
  rewrite filter_In, andb_true_iff, qs_contains_In_id.
  unfold values_list_id, exclude_id_in. rewrite in_map_iff.
  split.
  - intros [Hin [Happ [f [Hid Hf]]]]. apply filter_In in Hf.
    destruct Hf as [Hf Hvis]. apply negb_true_iff in Hvis.
    repeat split; try assumption. exists f. repeat split; try assumption.
    intros Hsu Hhid. rewrite Hsu in Hvis. cbn [negb] in Hvis.
    apply mem_id_In in Hhid. congruence.
  - intros [Hin [Happ [f [Hf [Hid Hvis]]]]].
    repeat split; try assumption. exists f. split; [assumption |].
    apply filter_In. split; [assumption |]. apply negb_true_iff.
    destruct (is_superuser user) eqn:Hsu; cbn [negb]; [reflexivity |].
    destruct (mem_id (forum_id f)
                (_get_hidden_forum_ids (get_descendants forum true) user))
      eqn:Hmem; [| reflexivity].
    exfalso. apply (Hvis eq_refl). now apply mem_id_In.
Qed.

(** C7.  [get_forum_last_post] looks at the forum and all its descendants,
    leaves out the forums hidden for the user (none for a superuser) and
    returns one of the most recently created approved posts of the forums
    that remain; it returns [None] exactly when no approved post exists
    there. *)
Theorem get_forum_last_post_spec (forum : Forum) (user : User) :
  (get_forum_last_post forum user = None
   <-> forall p, ~ last_post_candidate forum user p)
  /\ (forall p, get_forum_last_post forum user = Some p ->
                last_post_candidate forum user p
                /\ forall q, last_post_candidate forum user q ->
                             post_created q <= post_created p).
Proof.
  unfold get_forum_last_post.
  set (candidates :=
         filter
           (fun p =>
              approved p
              && qs_contains
                   (exclude_id_in
                      (if negb (is_superuser user)
                       then _get_hidden_forum_ids (get_descendants forum true) user
                       else [])
                      (get_descendants forum true))
                   (topic_forum (post_topic p)))
           post_objects).
  assert (Hcand : forall p, In p (order_by_created_desc candidates)
                            <-> last_post_candidate forum user p).
  { intros p. rewrite order_by_created_desc_In. apply last_post_filter. }
  pose proof (order_by_created_desc_newest_first candidates) as Hnewest.
  destruct (order_by_created_desc candidates) as [| p0 rest]; split.
  - split; [| reflexivity]. intros _ p Hp. now apply Hcand in Hp.
  - discriminate.
  - split; [discriminate |]. intros Hnone. exfalso.
    apply (Hnone p0). apply Hcand. now left.
  - intros p Hp. injection Hp as <-. split.
    + apply Hcand. now left.
    + intros q Hq. apply Hnewest. now apply Hcand.
Qed.

End HandlerFacts.

(** * Properties of the markup validator *)

Section MarkupFacts.
Variable Validator : Type.
Variable sys_modules : string -> option (Validators.PyModule Validator).
Variable dotted_path : string.

(** A module that cannot be imported is reported as [ImproperlyConfigured]. *)
Lemma missing_module_improperly_configured
  (module name : string) (max_length : option Z) :
  Validators.rsplit_dot dotted_path = Some (module, name) ->
  module <> EmptyString ->
  sys_modules module = None ->
  Validators._get_markup_maxlength_validator
    Validator sys_modules dotted_path max_length
  = Validators.Raise Validators.ImproperlyConfigured.
Proof.
  intros Hsplit Hname Hmissing.
  unfold Validators._get_markup_maxlength_validator,
    Validators.resolve_validator, Validators.__import__.
  rewrite Hsplit.
  destruct (String.eqb_spec module EmptyString) as [Heq | _];
    [contradiction |].
  now rewrite Hmissing.
Qed.

(** An attribute the module lacks leaves the function as [AttributeError]. *)
Lemma missing_attribute_attribute_error
  (module name : string) (m : Validators.PyModule Validator)
  (max_length : option Z) :
  Validators.rsplit_dot dotted_path = Some (module, name) ->
  module <> EmptyString ->
  sys_modules module = Some m ->
  m name = None ->
  Validators._get_markup_maxlength_validator
    Validator sys_modules dotted_path max_length
  = Validators.Raise Validators.AttributeError.
Proof.
  intros Hsplit Hname Hmodule Hattr.
  unfold Validators._get_markup_maxlength_validator,
    Validators.resolve_validator, Validators.__import__, Validators.getattr.
  rewrite Hsplit.
  destruct (String.eqb_spec module EmptyString) as [Heq | _];
    [contradiction |].
  now rewrite Hmodule, Hattr.
Qed.

(** A path without a dot leaves the function as [ValueError]. *)
Lemma undotted_path_value_error (max_length : option Z) :
  Validators.rsplit_dot dotted_path = None ->
  Validators._get_markup_maxlength_validator
    Validator sys_modules dotted_path max_length
  = Validators.Raise Validators.ValueError.
Proof.
  intros Hsplit.
  unfold Validators._get_markup_maxlength_validator,
    Validators.resolve_validator.
  now rewrite Hsplit.
Qed.

End MarkupFacts.

(** C8, on a concrete installation.  With [django.core.validators]
    importable, the path of a class that module does not define makes the
    construction of [MarkupMaxLengthValidator] end in [AttributeError], not in
    [ImproperlyConfigured]; a module that cannot be found is reported as
    [ImproperlyConfigured], and the path of a class that exists resolves. *)
Theorem missing_attribute_escapes_as_attribute_error :
  Validators.new_MarkupMaxLengthValidator
    Example.max_length_validator Example.installed
    "django.core.validators.NoSuchValidator" (Some 100)
  = Validators.Raise Validators.AttributeError
  /\ Validators.new_MarkupMaxLengthValidator
       Example.max_length_validator Example.installed
       "no.such.module.MaxLengthValidator" (Some 100)
     = Validators.Raise Validators.ImproperlyConfigured
  /\ Validators.new_MarkupMaxLengthValidator
       Example.max_length_validator Example.installed
       "django.core.validators.MaxLengthValidator" (Some 100)
     = Validators.Ok
         {| Validators.validator := Example.MaxLengthValidator (Some 100) |}.
Proof.
  unfold Validators.new_MarkupMaxLengthValidator.
  rewrite (missing_attribute_attribute_error _ Example.installed
             "django.core.validators.NoSuchValidator"
             "django.core.validators" "NoSuchValidator"
             (fun attribute =>
                if String.eqb attribute "MaxLengthValidator"
                then Some (fun limit_value =>
                             Validators.Ok (Example.MaxLengthValidator limit_value))
                else None));
    [| reflexivity | discriminate | reflexivity | reflexivity].
  rewrite (missing_module_improperly_configured _ Example.installed
             "no.such.module.MaxLengthValidator"
             "no.such.module" "MaxLengthValidator");
    [| reflexivity | discriminate | reflexivity].
  repeat split.
Qed.

(** * The handler on the example board *)

(** The chain 1 - 2 - 3 with the separate root 4 has nested subtrees. *)
Lemma example_subtrees_nested : subtrees_nested (tree := Example.forum_tree).
Proof.
  intros g f. unfold subtree_ids, values_list_id, get_descendants.
  cbn [Example.forum_tree forum_id strict_descendants Forum].
  rewrite !map_id.
  destruct (Z.eqb_spec g 1) as [-> | Hg1].
  - intros [<- | [<- | [<- | []]]]; cbn; intros x Hx; cbn in *; tauto.
  - destruct (Z.eqb_spec g 2) as [-> | Hg2].
    + intros [<- | [<- | []]]; cbn; intros x Hx; cbn in *; tauto.
    + intros [<- | []].
      destruct (Z.eqb_spec g 1); [contradiction |].
      destruct (Z.eqb_spec g 2); [contradiction |].
      apply incl_refl.
Qed.

(** Alice holds [can_read_forum] on forums 2 and 3 and, through her group,
    [can_see_forum] on forum 4, but nothing on forum 1: with candidates 2
    and 4, forum 2 is hidden by its ancestor 1, and so is its descendant 3,
    which is no candidate. *)
Lemma hidden_ancestor_hides_subtree_witness :
  In (Example.forum 2) [Example.forum 2; Example.forum 4]
  /\ In (Example.forum 1) (get_ancestors (Example.forum 2))
  /\ qs_contains
       (_get_forums_for_user (store := Example.board) Example.alice
          ["can_see_forum"; "can_read_forum"]%string)
       (Example.forum 1) = false
  /\ In (forum_id (Example.forum 2))
        (_get_hidden_forum_ids (store := Example.board)
           [Example.forum 2; Example.forum 4] Example.alice)
  /\ (forall D, In D (strict_descendants (Example.forum 2)) ->
                In (forum_id D)
                   (_get_hidden_forum_ids (store := Example.board)
                      [Example.forum 2; Example.forum 4] Example.alice)).
Proof.
  assert (HF : In (Example.forum 2) [Example.forum 2; Example.forum 4])
    by (now left).
  assert (HA : In (Example.forum 1) (get_ancestors (Example.forum 2)))
    by (now left).
  assert (Hinv : qs_contains
                   (_get_forums_for_user (store := Example.board) Example.alice
                      ["can_see_forum"; "can_read_forum"]%string)
                   (Example.forum 1) = false)
    by reflexivity.
  split; [exact HF |]. split; [exact HA |]. split; [exact Hinv |].
  destruct (@hidden_ancestor_hides_subtree Example.forum_tree Example.board
              Example.alice [Example.forum 2; Example.forum 4]
              (Example.forum 2) (Example.forum 1) HF HA Hinv)
    as [Hself Hsubtree].
  split; [exact Hself | exact (Hsubtree example_subtrees_nested)].
Defined.

Lemma hidden_ids_reach_beyond_candidates_witness :
  In (Example.forum 2) [Example.forum 2; Example.forum 4]
  /\ hidden_for (store := Example.board) Example.alice (Example.forum 2)
  /\ In (Example.forum 3) (strict_descendants (Example.forum 2))
  /\ mem_id (forum_id (Example.forum 3))
        (values_list_id [Example.forum 2; Example.forum 4]) = false
  /\ In (forum_id (Example.forum 3))
        (_get_hidden_forum_ids (store := Example.board)
           [Example.forum 2; Example.forum 4] Example.alice).
Proof.
  assert (HF : In (Example.forum 2) [Example.forum 2; Example.forum 4])
    by (now left).
  assert (Hhidden : hidden_for (store := Example.board) Example.alice
                      (Example.forum 2)).
  { left. exists (Example.forum 1). split; [now left | reflexivity]. }
  assert (HD : In (Example.forum 3) (strict_descendants (Example.forum 2)))
    by (now left).
  split; [exact HF |]. split; [exact Hhidden |]. split; [exact HD |].
  split; [reflexivity |].
  exact (@hidden_ids_reach_beyond_candidates Example.forum_tree Example.board
           Example.alice [Example.forum 2; Example.forum 4]
           (Example.forum 2) (Example.forum 3)
           example_subtrees_nested HF Hhidden HD).
Defined.

(** A superuser is refused the vote in a poll that has run out, and a
    second vote in a poll that does not allow vote changes. *)
Lemma superuser_vote_refused :
  is_superuser Example.admin = true
  /\ can_vote_in_poll (store := Example.board)
       (Example.poll 7 (Some 5) true) Example.admin (6 * Example.day) = false
  /\ is_superuser Example.moderator = true
  /\ can_vote_in_poll (store := Example.board)
       (Example.poll 7 (Some 5) false) Example.moderator (2 * Example.day)
     = false.
Proof. repeat split. Qed.

Lemma superuser_checks_witness :
  is_superuser Example.admin = true
  /\ can_read_forum (store := Example.board) (Example.forum 3) Example.admin = true
  /\ can_edit_post (store := Example.board)
       (Example.post 2 4 Example.bob true 200) Example.admin = true
  /\ (can_vote_in_poll (store := Example.board)
        (Example.poll 7 (Some 5) true) Example.admin (6 * Example.day) = true
      <-> ~ expired (Example.poll 7 (Some 5) true) (6 * Example.day)
          /\ (has_voted (Example.poll 7 (Some 5) true) Example.admin ->
              user_changes (Example.poll 7 (Some 5) true) = true)).
Proof.
  pose proof (@superuser_checks Example.forum_tree Example.board
                Example.admin eq_refl) as [Hforum [_ [Hpost Hpoll]]].
  split; [reflexivity |]. split; [apply (Hforum (Example.forum 3)) |].
  split; [apply (Hpost (Example.post 2 4 Example.bob true 200)) |].
  apply Hpoll.
Defined.

(** A poll of duration [0] created in the past: its creation time plus
    zero days is earlier than the current time, and voting is permitted. *)
Lemma zero_duration_poll_accepts_vote :
  duration (Example.poll 8 (Some 0) false) = Some 0
  /\ (poll_created (Example.poll 8 (Some 0) false) + timedelta_days 0
      <? 6 * Example.day) = true
  /\ can_vote_in_poll (store := Example.board)
       (Example.poll 8 (Some 0) false) Example.alice (6 * Example.day) = true.
Proof. repeat split. Qed.

Lemma expired_poll_denies_vote_witness :
  duration (Example.poll 7 (Some 5) true) = Some 5
  /\ 5 <> 0
  /\ poll_created (Example.poll 7 (Some 5) true) + 5 * 86400000000
     < 6 * Example.day
  /\ can_vote_in_poll (store := Example.board)
       (Example.poll 7 (Some 5) true) Example.alice (6 * Example.day) = false.
Proof.
  assert (Hnz : 5 <> 0) by discriminate.
  assert (Hlt : poll_created (Example.poll 7 (Some 5) true) + 5 * 86400000000
                < 6 * Example.day) by reflexivity.
  split; [reflexivity |]. split; [exact Hnz |]. split; [exact Hlt |].
  exact (@expired_poll_denies_vote Example.forum_tree Example.board
           (Example.poll 7 (Some 5) true) Example.alice (6 * Example.day) 5
           eq_refl Hnz Hlt).
Defined.

Lemma example_poll_running :
  ~ expired (Example.poll 7 (Some 5) false) (2 * Example.day).
Proof.
  intros [d [Hd [_ Hlt]]]. injection Hd as <-. revert Hlt. cbn.
  unfold Example.day. lia.
Qed.

Lemma example_alice_has_voted :
  has_voted (Example.poll 7 (Some 5) false) Example.alice.
Proof.
  eexists. split; [now left | reflexivity].
Qed.

(** Alice holds [can_vote_in_polls] on forum 1 and has voted in poll 7,
    which does not allow vote changes: a second vote is refused. *)
Lemma second_vote_needs_user_changes_witness :
  ~ expired (Example.poll 7 (Some 5) false) (2 * Example.day)
  /\ has_voted (Example.poll 7 (Some 5) false) Example.alice
  /\ _perform_basic_permission_check (store := Example.board)
       (Example.forum 1) Example.alice "can_vote_in_polls" = true
  /\ can_vote_in_poll (store := Example.board)
       (Example.poll 7 (Some 5) false) Example.alice (2 * Example.day) = false.
Proof.
  split; [exact example_poll_running |].
  split; [exact example_alice_has_voted |].
  split; [reflexivity |].
  apply (@second_vote_needs_user_changes Example.forum_tree Example.board
           (Example.poll 7 (Some 5) false) Example.alice (2 * Example.day)
           example_poll_running example_alice_has_voted).
  reflexivity.
Defined.

Lemma falsy_duration_never_expires_witness :
  (duration (Example.poll 8 (Some 0) false) = None
   \/ duration (Example.poll 8 (Some 0) false) = Some 0)
  /\ (forall instant now',
         can_vote_in_poll (store := Example.board)
           (created_at (Example.poll 8 (Some 0) false) instant)
           Example.alice now'
         = can_vote_in_poll (store := Example.board)
             (Example.poll 8 (Some 0) false) Example.alice (6 * Example.day)).
Proof.
  split; [now right |].
  apply (@falsy_duration_never_expires Example.forum_tree Example.board
           (Example.poll 8 (Some 0) false) Example.alice (6 * Example.day)
           (or_intror eq_refl)).
Defined.

(** Bob holds no grant for [can_see_forum] or [can_read_forum]. *)
Lemma example_bob_holds_nothing (f : @Forum Example.forum_tree) :
  ~ granted (store := Example.board) (lookup_identity (store := Example.board) Example.bob)
      ["can_see_forum"; "can_read_forum"]%string f.
Proof.
  intros [[r [Hin [Hpk [_ [Hcode _]]]]] | [r [_ [Hgroup _]]]].
  - cbn in Hin.
    destruct Hin as [<- | [<- | [<- | [<- | [<- | [<- | []]]]]]];
      cbn in Hpk, Hcode; try discriminate Hpk.
    destruct Hcode as [Hc | [Hc | []]]; discriminate Hc.
  - destruct Hgroup.
Qed.

(** Bob, without any grant, sees every forum through the defaults; Alice,
    with grants on forums 2, 3 and 4, sees exactly the forums she holds a
    grant on. *)
Lemma get_forums_for_user_spec_witness :
  is_superuser Example.bob = false
  /\ _get_forums_for_user (store := Example.board) Example.bob
       ["can_see_forum"; "can_read_forum"]%string
     = forum_queryset (Store := Example.board)
  /\ is_superuser Example.alice = false
  /\ (forall f,
         In f (_get_forums_for_user (store := Example.board) Example.alice
                 ["can_see_forum"; "can_read_forum"]%string)
         <-> In f (forum_queryset (Store := Example.board))
             /\ granted (store := Example.board) (lookup_identity (store := Example.board) Example.alice)
                  ["can_see_forum"; "can_read_forum"]%string f).
Proof.
  split; [reflexivity |]. split; [| split; [reflexivity |]].
  - apply (@get_forums_for_user_spec Example.forum_tree Example.board
             Example.bob ["can_see_forum"; "can_read_forum"]%string eq_refl).
    + intros f _. apply example_bob_holds_nothing.
    + apply incl_refl.
  - apply (@get_forums_for_user_spec Example.forum_tree Example.board
             Example.alice ["can_see_forum"; "can_read_forum"]%string eq_refl).
    left. exists (Example.forum 2). split; [right; now left |].
    left. eexists. split; [now left |]. cbn. repeat split. right. now left.
Defined.

(** The cases of C6 on the board: Alice wrote post 1 of forum 4 and holds
    only [can_edit_posts] there; Bob wrote post 2 of forum 4 and holds only
    [can_edit_own_posts] there; Alice wrote post 4 of forum 2, where she
    holds neither. *)
Example can_edit_post_on_the_board :
  can_edit_post (store := Example.board)
    (Example.post 1 4 Example.alice true 100) Example.alice = true
  /\ can_edit_post (store := Example.board)
       (Example.post 2 4 Example.bob true 200) Example.bob = true
  /\ can_edit_post (store := Example.board)
       (Example.post 1 4 Example.alice true 100) Example.bob = false
  /\ can_edit_post (store := Example.board)
       (Example.post 4 2 Example.alice true 400) Example.alice = false.
Proof. repeat split. Qed.

(** Forum 4 holds two approved posts and a later one that is not approved;
    forum 1 and its descendants are hidden for Alice. *)
Example get_forum_last_post_on_the_board :
  get_forum_last_post (store := Example.board) (Example.forum 4) Example.alice
  = Some (Example.post 2 4 Example.bob true 200)
  /\ get_forum_last_post (store := Example.board) (Example.forum 1) Example.alice
     = None
  /\ get_forum_last_post (store := Example.board) (Example.forum 1) Example.admin
     = Some (Example.post 4 2 Example.alice true 400).
Proof. repeat split. Qed.

(** An anonymous visitor is looked up as guardian's anonymous user, who
    holds [can_read_forum] on forum 4 only. *)
Example anonymous_visitor_on_the_board :
  lookup_identity (store := Example.board) Example.visitor
  = Example.guardian_anonymous
  /\ _get_forums_for_user (store := Example.board) Example.visitor
       ["can_see_forum"; "can_read_forum"]%string
     = [Example.forum 4].
Proof. split; reflexivity. Qed.

(** * Further properties of the handler *)

Section FilteringFacts.
Context {tree : ForumTree} {store : Store}.

(** Membership in a queryset only looks at the key. *)
Lemma qs_contains_same_id (qs : list Forum) (f g : Forum) :
  forum_id f = forum_id g -> qs_contains qs f = qs_contains qs g.
Proof.
  intros Hid. unfold qs_contains. now rewrite Hid.
Qed.

Lemma not_hidden_for (user : User) (forum : Forum) :
  ~ hidden_for user forum ->
  qs_contains (visible_forums_for user) forum = true
  /\ all_ancestors_visible user forum.
Proof.
  intros Hnot. split.
  - destruct (qs_contains (visible_forums_for user) forum) eqn:Hv;
      [reflexivity |].
    exfalso. apply Hnot. now right.
  - intros a Ha.
    destruct (qs_contains (visible_forums_for user) a) eqn:Hv; [reflexivity |].
    exfalso. apply Hnot. left. exists a. now split.
Qed.

(** Every key a turn of the loop adds belongs to the subtree of the forum
    of that turn, and that forum is hidden. *)
Lemma hide_forum_origin (user : User) (hidden : list Z) (forum : Forum) (i : Z) :
  In i (hide_forum (visible_forums_for user) hidden forum) ->
  In i hidden \/ (hidden_for user forum /\ In i (subtree_ids forum)).
Proof.
  unfold hide_forum.
  destruct (negb (mem_id (forum_id forum) hidden)); [| now left].
  destruct (negb (ancestors_visible (visible_forums_for user)
                    (get_ancestors forum))
            || negb (qs_contains (visible_forums_for user) forum)) eqn:Htest;
    [| now left].
  intros Hi. apply in_app_or in Hi. destruct Hi as [Hi | Hi]; [now left |].
  right. split; [now apply hide_forum_test | exact Hi].
Qed.

Lemma hidden_loop_origin (user : User) (forums : list Forum) (hidden : list Z)
  (i : Z) :
  In i (fold_left (hide_forum (visible_forums_for user)) forums hidden) ->
  In i hidden
  \/ exists g, In g forums /\ hidden_for user g /\ In i (subtree_ids g).
Proof.
  revert hidden. induction forums as [| f rest IH]; intros hidden; simpl.
  - now left.
  - intros Hi. apply IH in Hi. destruct Hi as [Hi | [g [Hg Hrest]]].
    + apply hide_forum_origin in Hi. destruct Hi as [Hi | [Hhid Hsub]].
      * now left.
      * right. exists f. split; [now left | now split].
    + right. exists g. split; [now right | exact Hrest].
Qed.

Lemma hidden_ids_origin (user : User) (forums : list Forum) (i : Z) :
  In i (_get_hidden_forum_ids forums user) ->
  exists g, In g forums /\ hidden_for user g /\ In i (subtree_ids g).
Proof.
  intros Hi. unfold _get_hidden_forum_ids in Hi.
  apply (hidden_loop_origin user forums [] i) in Hi.
  destruct Hi as [[] | Hg]. exact Hg.
Qed.

(** A forum that [forum_list_filter] keeps for a user who is not a
    superuser is in the queryset, visible, and has visible ancestors. *)
Lemma listed_forum_visible (qs : list Forum) (user : User) (f : Forum) :
  is_superuser user = false ->
  In f (forum_list_filter qs user) ->
  In f qs
  /\ qs_contains (visible_forums_for user) f = true
  /\ all_ancestors_visible user f.
Proof.
  intros Hsu Hf. unfold forum_list_filter in Hf. rewrite Hsu in Hf.
  unfold exclude_id_in in Hf.
  apply filter_In in Hf. destruct Hf as [Hin Hkept].
  apply negb_true_iff in Hkept.
  split; [exact Hin |]. apply not_hidden_for. intros Hhidden.
  assert (Hmarked : In (forum_id f) (_get_hidden_forum_ids qs user))
    by (now apply hidden_ids_mark_forum).
  apply mem_id_In in Hmarked. congruence.
Qed.

(** X1.  Every key of the list returned by [_get_hidden_forum_ids] comes
    from a hidden candidate: it is the key of a forum in the subtree of a
    candidate that is not visible or has an ancestor that is not.  In a
    tree with nested subtrees the converse holds, so that the keys returned
    are exactly those of the subtrees of the hidden candidates, whatever
    the order of the candidates. *)
Theorem hidden_ids_exact (user : User) (forums : list Forum) (i : Z) :
  (In i (_get_hidden_forum_ids forums user) ->
   exists g, In g forums /\ hidden_for user g /\ In i (subtree_ids g))
  /\ (subtrees_nested ->
      (exists g, In g forums /\ hidden_for user g /\ In i (subtree_ids g)) ->
      In i (_get_hidden_forum_ids forums user)).
Proof.
  split.
  - apply hidden_ids_origin.
  - intros Hnested [g [Hg [Hhidden Hi]]].
    now apply (hidden_ids_cover_subtree user forums g Hnested Hg Hhidden).
Qed.

Lemma no_hidden_candidate_empty (user : User) (forums : list Forum) :
  (forall f, In f forums -> ~ hidden_for user f) ->
  _get_hidden_forum_ids forums user = [].
Proof.
  intros Hnone.
  destruct (_get_hidden_forum_ids forums user) as [| i rest] eqn:Hres;
    [reflexivity |].
  exfalso.
  assert (Hi : In i (_get_hidden_forum_ids forums user))
    by (rewrite Hres; now left).
  apply hidden_ids_origin in Hi.
  destruct Hi as [g [Hg [Hhidden _]]]. exact (Hnone g Hg Hhidden).
Qed.

(** X2.  When no candidate is hidden, [_get_hidden_forum_ids] returns the
    empty list; this is the case for a superuser as soon as the candidates
    and their ancestors are rows of the forum table. *)
Theorem nothing_hidden_gives_empty_list (user : User) (forums : list Forum) :
  ((forall f, In f forums -> ~ hidden_for user f) ->
   _get_hidden_forum_ids forums user = [])
  /\ (is_superuser user = true ->
      (forall f, In f forums ->
                 is_forum_row f
                 /\ forall a, In a (get_ancestors f) -> is_forum_row a) ->
      _get_hidden_forum_ids forums user = []).
Proof.
  split; [apply no_hidden_candidate_empty |].
  intros Hsu Hrows. apply no_hidden_candidate_empty. intros f Hf Hhidden.
  assert (Hvisible : visible_forums_for user = forum_queryset).
  { unfold visible_forums_for, _get_forums_for_user. now rewrite Hsu. }
  destruct (Hrows f Hf) as [Hrow Hanc].
  unfold hidden_for in Hhidden. rewrite Hvisible in Hhidden.
  destruct Hhidden as [[a [Ha Hinv]] | Hinv].
  - apply Hanc in Ha. apply qs_contains_In_id in Ha. congruence.
  - apply qs_contains_In_id in Hrow. congruence.
Qed.

(** X3.  [forum_list_filter] returns the queryset as it is for a
    superuser; for any other user it returns forums of the queryset only,
    and never a forum that is outside the visible set of the user or has an
    ancestor outside it. *)
Theorem forum_list_filter_sound (qs : list Forum) (user : User) :
  (is_superuser user = true -> forum_list_filter qs user = qs)
  /\ (is_superuser user = false ->
      forall f, In f (forum_list_filter qs user) ->
                In f qs
                /\ qs_contains (visible_forums_for user) f = true
                /\ all_ancestors_visible user f).
Proof.
  split.
  - intros Hsu. unfold forum_list_filter. now rewrite Hsu.
  - intros Hsu f Hf. now apply listed_forum_visible.
Qed.

(** X4.  In a tree where ancestors follow subtrees, [forum_list_filter]
    keeps, for a user who is not a superuser, exactly the forums of the
    queryset that are in the visible set and whose ancestors all are. *)
Theorem forum_list_filter_exact (qs : list Forum) (user : User) (f : Forum) :
  ancestors_follow_subtrees ->
  is_superuser user = false ->
  (In f (forum_list_filter qs user)
   <-> In f qs
       /\ qs_contains (visible_forums_for user) f = true
       /\ all_ancestors_visible user f).
Proof.
  intros Hlaw Hsu. split.
  - now apply listed_forum_visible.
  - intros [Hin [Hvisible Hancestors]].
    unfold forum_list_filter. rewrite Hsu. unfold exclude_id_in.
    apply filter_In. split; [exact Hin |]. apply negb_true_iff.
    destruct (mem_id (forum_id f) (_get_hidden_forum_ids qs user)) eqn:Hmem;
      [| reflexivity].
    exfalso. apply mem_id_In in Hmem.
    apply hidden_ids_origin in Hmem.
    destruct Hmem as [g [_ [Hhidden Hsub]]].
    destruct (Hlaw g f Hsub) as [Hg Hup].
    assert (Hkey : forall k, In k (values_list_id (get_ancestors f)) ->
                   forall x, forum_id x = k ->
                   qs_contains (visible_forums_for user) x = true).
    { intros k Hk x Hx. unfold values_list_id in Hk.
      apply in_map_iff in Hk. destruct Hk as [a [Hid Ha]].
      rewrite (qs_contains_same_id _ x a) by congruence.
      now apply Hancestors. }
    destruct Hhidden as [[a [Ha Hinv]] | Hinv].
    + assert (Ha' : In (forum_id a) (values_list_id (get_ancestors f))).
      { apply Hup. unfold values_list_id. now apply in_map. }
      rewrite (Hkey _ Ha' a eq_refl) in Hinv. discriminate.
    + destruct Hg as [Hsame | Hanc].
      * rewrite (qs_contains_same_id _ g f) in Hinv by congruence. congruence.
      * rewrite (Hkey _ Hanc g eq_refl) in Hinv. discriminate.
Qed.

Lemma exclude_nothing (qs : list Forum) : exclude_id_in [] qs = qs.
Proof.
  unfold exclude_id_in. induction qs as [| f rest IH]; simpl;
    [reflexivity | f_equal; exact IH].
Qed.

Lemma exclude_everything (ids : list Z) (qs : list Forum) :
  incl (values_list_id qs) ids -> exclude_id_in ids qs = [].
Proof.
  unfold exclude_id_in, values_list_id.
  induction qs as [| f rest IH]; simpl; intros Hall; [reflexivity |].
  assert (Hf : mem_id (forum_id f) ids = true)
    by (apply mem_id_In, Hall; now left).
  rewrite Hf. simpl. apply IH. intros i Hi. apply Hall. now right.
Qed.

(** X14.  Filtering twice is filtering once: [forum_list_filter] applied
    to its own result, for the same user, returns that result unchanged. *)
Theorem forum_list_filter_idempotent (qs : list Forum) (user : User) :
  forum_list_filter (forum_list_filter qs user) user
  = forum_list_filter qs user.
Proof.
  destruct (is_superuser user) eqn:Hsu.
  - unfold forum_list_filter. now rewrite Hsu.
  - unfold forum_list_filter at 1. rewrite Hsu.
    rewrite no_hidden_candidate_empty; [apply exclude_nothing |].
    intros f Hf Hhidden.
    destruct (listed_forum_visible qs user f Hsu Hf) as [_ [Hvisible Hanc]].
    destruct Hhidden as [[a [Ha Hinv]] | Hinv].
    + rewrite (Hanc a Ha) in Hinv. discriminate.
    + congruence.
Qed.

(** X15.  In a tree with nested subtrees the keys returned by
    [_get_hidden_forum_ids] depend on which forums are candidates only, not
    on their order or on repetitions among them. *)
Theorem hidden_ids_order_independent
  (user : User) (forums forums' : list Forum) (i : Z) :
  subtrees_nested ->
  (forall f, In f forums <-> In f forums') ->
  (In i (_get_hidden_forum_ids forums user)
   <-> In i (_get_hidden_forum_ids forums' user)).
Proof.
  intros Hnested Hsame.
  split; intros Hi; apply hidden_ids_origin in Hi;
    destruct Hi as [g [Hg [Hhidden Hsub]]];
    apply Hsame in Hg;
    now apply (hidden_ids_cover_subtree user _ g Hnested Hg Hhidden).
Qed.

(** X16.  A user who is not a superuser gets no last post from a forum
    that is hidden for that user: when the forum is outside the visible
    set, or has an ancestor outside it, [get_forum_last_post] returns
    [None], whatever posts the forum and its descendants hold. *)
Theorem hidden_forum_has_no_last_post (forum : Forum) (user : User) :
  is_superuser user = false ->
  hidden_for user forum ->
  get_forum_last_post forum user = None.
Proof.
  intros Hsu Hhidden. unfold get_forum_last_post. rewrite Hsu. cbn [negb].
  assert (Hall : incl (values_list_id (get_descendants forum true))
                      (_get_hidden_forum_ids (get_descendants forum true) user)).
  { unfold _get_hidden_forum_ids. fold (visible_forums_for user).
    cbn [get_descendants fold_left].
    eapply incl_tran; [| apply hidden_loop_grows].
    apply hide_forum_covers; [intros f [] | exact Hhidden]. }
  rewrite (exclude_everything _ _ Hall).
  assert (Hnone : filter
                    (fun p => approved p
                              && qs_contains [] (topic_forum (post_topic p)))
                    post_objects = []).
  { induction post_objects as [| p rest IH]; simpl; [reflexivity |].
    rewrite andb_false_r. exact IH. }
  now rewrite Hnone.
Qed.

End FilteringFacts.

Section VisibilityFacts.
Context {tree : ForumTree} {store : Store}.

(** X5.  [_get_forums_for_user] only returns rows of the forum table, and
    all of them for a superuser.  When the codenames asked for are among
    the default authenticated-user permissions and the table is not empty,
    the result is not empty either: a user without any grant gets every
    forum, not none. *)
Theorem get_forums_for_user_range (user : User) (P : list string) :
  incl (_get_forums_for_user user P) forum_queryset
  /\ (is_superuser user = true -> _get_forums_for_user user P = forum_queryset)
  /\ (incl P DEFAULT_AUTHENTICATED_USER_FORUM_PERMISSIONS ->
      forum_queryset <> [] ->
      _get_forums_for_user user P <> []).
Proof.
  destruct (is_superuser user) eqn:Hsu.
  - assert (Hall : _get_forums_for_user user P = forum_queryset)
      by (unfold _get_forums_for_user; now rewrite Hsu).
    rewrite Hall. split; [apply incl_refl |]. split; [reflexivity |].
    intros _ Hne. exact Hne.
  - rewrite (get_forums_for_user_unfold user P Hsu).
    split; [| split; [discriminate |]].
    + destruct (negb (exists_ (granted_forums (lookup_identity user) P))
                && issubset P DEFAULT_AUTHENTICATED_USER_FORUM_PERMISSIONS).
      * apply incl_refl.
      * intros f Hf. now apply granted_forums_In in Hf.
    + intros Hsub Hne. apply issubset_incl in Hsub. rewrite Hsub.
      destruct (granted_forums (lookup_identity user) P) as [| f l] eqn:Hg;
        simpl; [exact Hne | discriminate].
Qed.

(** X6.  For every user, [can_vote_in_poll] returns [True] exactly when
    the poll has not run out, the basic [can_vote_in_polls] check on the
    forum of the poll's topic passes and, if the user has already voted in
    the poll, the poll allows vote changes. *)
Theorem can_vote_in_poll_iff (poll : TopicPoll) (user : User) (now : Z) :
  can_vote_in_poll poll user now = true
  <-> ~ expired poll now
      /\ _perform_basic_permission_check
           (topic_forum (poll_topic poll)) user "can_vote_in_polls" = true
      /\ (has_voted poll user -> user_changes poll = true).
Proof.
  unfold can_vote_in_poll.
  rewrite <- poll_open_not_expired, <- user_votes_has_voted.
  destruct (poll_closed poll now).
  - split; [discriminate | intros [Hopen _]; discriminate].
  - destruct (_perform_basic_permission_check
                (topic_forum (poll_topic poll)) user "can_vote_in_polls");
      destruct (exists_ (user_votes poll user)); simpl.
    + split; [intros H; repeat split; auto | intros [_ [_ H]]; now apply H].
    + split; [intros _; repeat split; discriminate | reflexivity].
    + split; [discriminate | intros [_ [H _]]; discriminate].
    + split; [discriminate | intros [_ [H _]]; discriminate].
Qed.

Lemma last_post_is_candidate (forum : Forum) (user : User) (p : Post) :
  get_forum_last_post forum user = Some p ->
  last_post_candidate forum user p.
Proof.
  unfold get_forum_last_post. intros Hlast.
  apply last_post_filter. apply order_by_created_desc_In.
  destruct (order_by_created_desc _) as [| q rest]; [discriminate |].
  injection Hlast as <-. now left.
Qed.

(** X7.  The post [get_forum_last_post] returns lies in a forum that
    [forum_list_filter] keeps when it is given the forum and its
    descendants; for a user who is not a superuser that forum is in the
    visible set and so are all its ancestors. *)
Theorem last_post_forum_is_listed (forum : Forum) (user : User) (p : Post) :
  get_forum_last_post forum user = Some p ->
  exists f, In f (forum_list_filter (get_descendants forum true) user)
            /\ forum_id f = forum_id (topic_forum (post_topic p))
            /\ (is_superuser user = false ->
                qs_contains (visible_forums_for user) f = true
                /\ all_ancestors_visible user f).
Proof.
  intros Hlast.
  apply last_post_is_candidate in Hlast.
  destruct Hlast as [_ [_ [f [Hf [Hid Hshown]]]]].
  assert (Hlisted : In f (forum_list_filter (get_descendants forum true) user)).
  { unfold forum_list_filter. destruct (is_superuser user) eqn:Hsu;
      [exact Hf |].
    unfold exclude_id_in. apply filter_In. split; [exact Hf |].
    apply negb_true_iff.
    destruct (mem_id (forum_id f)
                (_get_hidden_forum_ids (get_descendants forum true) user))
      eqn:Hmem; [| reflexivity].
    exfalso. apply (Hshown eq_refl). now apply mem_id_In. }
  exists f. split; [exact Hlisted |]. split; [exact Hid |].
  intros Hsu.
  now apply (listed_forum_visible (get_descendants forum true) user f Hsu).
Qed.

End VisibilityFacts.

(** * Further properties of the markup validator *)

Lemma rsplit_dot_none (s : string) :
  Validators.rsplit_dot s = None <-> has_dot s = false.
Proof.
  induction s as [| c rest IH]; simpl.
  - split; reflexivity.
  - destruct (Validators.rsplit_dot rest) as [[m v] |].
    + split; [discriminate |]. intros H. apply orb_false_iff in H.
      destruct H as [_ H]. apply IH in H. discriminate.
    + destruct (Ascii.eqb c ".") eqn:Hc; simpl.
      * split; discriminate.
      * split; intros _; [now apply IH | reflexivity].
Qed.

Lemma rsplit_dot_some (s module name : string) :
  Validators.rsplit_dot s = Some (module, name) ->
  s = dotted module name /\ has_dot name = false.
Proof.
  revert module. induction s as [| c rest IH]; intros module; simpl.
  - discriminate.
  - destruct (Validators.rsplit_dot rest) as [[m v] |] eqn:Hrest.
    + intros H. injection H as <- <-.
      destruct (IH m eq_refl) as [-> Hv]. split; [reflexivity | exact Hv].
    + destruct (Ascii.eqb_spec c ".") as [-> | Hc]; [| discriminate].
      intros H. injection H as <- <-.
      split; [reflexivity | now apply rsplit_dot_none].
Qed.

Lemma rsplit_dot_dotted (module name : string) :
  has_dot name = false ->
  Validators.rsplit_dot (dotted module name) = Some (module, name).
Proof.
  intros Hname. unfold dotted.
  induction module as [| c rest IH]; simpl.
  - apply rsplit_dot_none in Hname. now rewrite Hname.
  - now rewrite IH.
Qed.

(** X8.  The path of the setting is cut at its last dot: a path
    [module.name] whose [name] holds no dot is split into [module] and
    [name], a path that is split is of that form, and a path is left
    unsplit exactly when it holds no dot. *)
Theorem rsplit_dot_cuts_at_last_dot (s module name : string) :
  (Validators.rsplit_dot s = Some (module, name)
   <-> s = dotted module name /\ has_dot name = false)
  /\ (Validators.rsplit_dot s = None <-> has_dot s = false).
Proof.
  split; [| apply rsplit_dot_none]. split.
  - apply rsplit_dot_some.
  - intros [-> Hname]. now apply rsplit_dot_dotted.
Qed.

Section MarkupOutcomes.
Variable Validator : Type.
Variable sys_modules : string -> option (Validators.PyModule Validator).
Variable dotted_path : string.

(** How the function ends, by the step that decides it. *)
Lemma markup_validator_outcome (max_length : option Z) :
  Validators._get_markup_maxlength_validator
    Validator sys_modules dotted_path max_length
  = match Validators.rsplit_dot dotted_path with
    | None => Validators.Raise Validators.ValueError
    | Some (module, name) =>
        if String.eqb module EmptyString
        then Validators.Raise Validators.ValueError
        else
          match sys_modules module with
          | None => Validators.Raise Validators.ImproperlyConfigured
          | Some m =>
              match m name with
              | None => Validators.Raise Validators.AttributeError
              | Some class =>
                  match class max_length with
                  | Validators.Raise Validators.ImportError =>
                      Validators.Raise Validators.ImproperlyConfigured
                  | outcome => outcome
                  end
              end
          end
    end.
Proof.
  unfold Validators._get_markup_maxlength_validator,
    Validators.resolve_validator, Validators.__import__, Validators.getattr.
  destruct (Validators.rsplit_dot dotted_path) as [[module name] |];
    [| reflexivity].
  destruct (String.eqb module EmptyString); [reflexivity |].
  destruct (sys_modules module) as [m |]; [| reflexivity].
  destruct (m name) as [class |]; reflexivity.
Qed.

(** X9.  [_get_markup_maxlength_validator] never ends in [ImportError]:
    the handler turns every one into [ImproperlyConfigured]. *)
Theorem import_error_never_escapes (max_length : option Z) :
  Validators._get_markup_maxlength_validator
    Validator sys_modules dotted_path max_length
  <> Validators.Raise Validators.ImportError.
Proof.
  rewrite markup_validator_outcome.
  destruct (Validators.rsplit_dot dotted_path) as [[module name] |];
    [| discriminate].
  destruct (String.eqb module EmptyString); [discriminate |].
  destruct (sys_modules module) as [m |]; [| discriminate].
  destruct (m name) as [class |]; [| discriminate].
  destruct (class max_length) as [v | []]; discriminate.
Qed.

(** X10.  [_get_markup_maxlength_validator] returns a validator exactly
    when the setting reads [module.name] with a dot-free [name] and a
    non-empty [module], the module can be imported, it holds [name], and
    calling that attribute with the limit returns the validator. *)
Theorem validator_resolves_iff (max_length : option Z) (v : Validator) :
  Validators._get_markup_maxlength_validator
    Validator sys_modules dotted_path max_length = Validators.Ok v
  <-> exists module name m class,
        dotted_path = dotted module name
        /\ has_dot name = false
        /\ module <> EmptyString
        /\ sys_modules module = Some m
        /\ m name = Some class
        /\ class max_length = Validators.Ok v.
Proof.
  rewrite markup_validator_outcome. split.
  - destruct (Validators.rsplit_dot dotted_path) as [[module name] |] eqn:Hs;
      [| discriminate].
    destruct (String.eqb_spec module EmptyString) as [| Hne]; [discriminate |].
    destruct (sys_modules module) as [m |] eqn:Hm; [| discriminate].
    destruct (m name) as [class |] eqn:Hc; [| discriminate].
    intros Hv. apply rsplit_dot_some in Hs. destruct Hs as [Hpath Hname].
    exists module, name, m, class. repeat split; try assumption.
    destruct (class max_length) as [w | []]; try discriminate. exact Hv.
  - intros [module [name [m [class [Hpath [Hname [Hne [Hm [Hc Hv]]]]]]]]].
    subst dotted_path. rewrite (rsplit_dot_dotted module name Hname).
    destruct (String.eqb_spec module EmptyString) as [| _]; [contradiction |].
    now rewrite Hm, Hc, Hv.
Qed.

(** X11.  [_get_markup_maxlength_validator] ends in [ImproperlyConfigured]
    exactly when the setting reads [module.name] with a dot-free [name] and
    a non-empty [module], and either the module cannot be imported, or it
    holds [name] and calling that attribute ends in [ImportError] or
    [ImproperlyConfigured]. *)
Theorem improperly_configured_iff (max_length : option Z) :
  Validators._get_markup_maxlength_validator
    Validator sys_modules dotted_path max_length
  = Validators.Raise Validators.ImproperlyConfigured
  <-> exists module name,
        dotted_path = dotted module name
        /\ has_dot name = false
        /\ module <> EmptyString
        /\ (sys_modules module = None
            \/ exists m class,
                 sys_modules module = Some m
                 /\ m name = Some class
                 /\ (class max_length = Validators.Raise Validators.ImportError
                     \/ class max_length
                        = Validators.Raise Validators.ImproperlyConfigured)).
Proof.
  rewrite markup_validator_outcome. split.
  - destruct (Validators.rsplit_dot dotted_path) as [[module name] |] eqn:Hs;
      [| discriminate].
    destruct (String.eqb_spec module EmptyString) as [| Hne]; [discriminate |].
    apply rsplit_dot_some in Hs. destruct Hs as [Hpath Hname].
    intros Hend. exists module, name. repeat split; try assumption.
    destruct (sys_modules module) as [m |] eqn:Hm; [| now left].
    destruct (m name) as [class |] eqn:Hc; [| discriminate].
    right. exists m, class. repeat split; try assumption.
    destruct (class max_length) as [w | []]; try discriminate; auto.
  - intros [module [name [Hpath [Hname [Hne Hcase]]]]].
    subst dotted_path. rewrite (rsplit_dot_dotted module name Hname).
    destruct (String.eqb_spec module EmptyString) as [| _]; [contradiction |].
    destruct Hcase as [Hm | [m [class [Hm [Hc [Hv | Hv]]]]]].
    + now rewrite Hm.
    + now rewrite Hm, Hc, Hv.
    + now rewrite Hm, Hc, Hv.
Qed.

End MarkupOutcomes.

(** * Properties of the import-time fallbacks *)

Section CompatFacts.
Variable obj : Type.
Variable from_import : string -> string -> option obj.
Variable import_module : string -> option obj.
Variable settings_AUTH_USER_MODEL : option string.

(** Each binding follows the first of its two sources that is available. *)
Lemma bind_PILImage_outcome :
  Compat.bind_PILImage obj from_import import_module
  = match Compat.first_of obj (from_import "PIL" "Image")
            (import_module "Image") with
    | Some image => Validators.Ok image
    | None => Validators.Raise Validators.ImproperlyConfigured
    end.
Proof.
  unfold Compat.bind_PILImage, Compat.from_, Compat.import_, Compat.first_of.
  destruct (from_import "PIL" "Image"); [reflexivity |].
  now destruct (import_module "Image").
Qed.

Lemma bind_slugify_outcome :
  Compat.bind_slugify obj from_import
  = match Compat.first_of obj (from_import "django.utils.text" "slugify")
            (from_import "django.template.defaultfilters" "slugify") with
    | Some slug => Validators.Ok slug
    | None => Validators.Raise Validators.ImportError
    end.
Proof.
  unfold Compat.bind_slugify, Compat.from_, Compat.first_of.
  destruct (from_import "django.utils.text" "slugify"); [reflexivity |].
  now destruct (from_import "django.template.defaultfilters" "slugify").
Qed.

Lemma bind_force_bytes_outcome :
  Compat.bind_force_bytes obj from_import
  = match Compat.first_of obj
            (from_import "django.utils.encoding" "force_bytes")
            (from_import "django.utils.encoding" "smart_str") with
    | Some bytes => Validators.Ok bytes
    | None => Validators.Raise Validators.ImportError
    end.
Proof.
  unfold Compat.bind_force_bytes, Compat.from_, Compat.first_of.
  destruct (from_import "django.utils.encoding" "force_bytes"); [reflexivity |].
  now destruct (from_import "django.utils.encoding" "smart_str").
Qed.

Lemma bind_get_user_model_outcome :
  Compat.bind_get_user_model obj from_import
  = match from_import "django.contrib.auth" "get_user_model",
          from_import "django.contrib.auth.models" "User" with
    | Some f, _ => Validators.Ok (Compat.Imported obj f)
    | None, Some User => Validators.Ok (Compat.LambdaReturning obj User)
    | None, None => Validators.Raise Validators.ImportError
    end.
Proof.
  unfold Compat.bind_get_user_model, Compat.from_.
  destruct (from_import "django.contrib.auth" "get_user_model");
    [reflexivity |].
  now destruct (from_import "django.contrib.auth.models" "User").
Qed.


(** X13.  When the module loads, each name is bound to its first source if
    that source is available and to its fallback otherwise: [PILImage] to
    Pillow's [PIL.Image] before [Image], [slugify] to
    [django.utils.text.slugify] before the template filter, [force_bytes]
    to [force_bytes] before [smart_str], [get_user_model] to Django's
    function before the lambda that returns [User]; [AUTH_USER_MODEL] is
    the setting, or ['auth.User'] when the settings have none. *)
Theorem load_bindings (ns : Compat.namespace obj) :
  Compat.load obj from_import import_module settings_AUTH_USER_MODEL
  = Validators.Ok ns ->
  Some (Compat.PILImage obj ns)
  = Compat.first_of obj (from_import "PIL" "Image") (import_module "Image")
  /\ Some (Compat.slugify obj ns)
     = Compat.first_of obj (from_import "django.utils.text" "slugify")
         (from_import "django.template.defaultfilters" "slugify")
  /\ Some (Compat.force_bytes obj ns)
     = Compat.first_of obj (from_import "django.utils.encoding" "force_bytes")
         (from_import "django.utils.encoding" "smart_str")
  /\ Compat.AUTH_USER_MODEL obj ns
     = match settings_AUTH_USER_MODEL with
       | Some model => model
       | None => "auth.User"%string
       end
  /\ (forall f, from_import "django.contrib.auth" "get_user_model" = Some f ->
                Compat.get_user_model obj ns = Compat.Imported obj f)
  /\ (from_import "django.contrib.auth" "get_user_model" = None ->
      exists User, from_import "django.contrib.auth.models" "User" = Some User
                   /\ Compat.get_user_model obj ns
                      = Compat.LambdaReturning obj User).
Proof.
  unfold Compat.load.
  rewrite bind_PILImage_outcome, bind_slugify_outcome,
    bind_force_bytes_outcome, bind_get_user_model_outcome.
  unfold Compat.and_then, Compat.bind_AUTH_USER_MODEL.
  destruct (Compat.first_of obj (from_import "PIL" "Image")
              (import_module "Image")) as [image |]; [| discriminate].
  destruct (Compat.first_of obj (from_import "django.utils.text" "slugify")
              (from_import "django.template.defaultfilters" "slugify"))
    as [slug |]; [| discriminate].
  destruct (Compat.first_of obj
              (from_import "django.utils.encoding" "force_bytes")
              (from_import "django.utils.encoding" "smart_str"))
    as [bytes |]; [| discriminate].
  destruct (from_import "django.contrib.auth" "get_user_model") as [getter |].
  - intros Hns. injection Hns as <-. cbn. repeat split.
    + intros f Hf. now injection Hf as <-.
    + discriminate.
  - destruct (from_import "django.contrib.auth.models" "User") as [user |];
      [| discriminate].
    intros Hns. injection Hns as <-. cbn. repeat split.
    + discriminate.
    + intros _. exists user. now split.
Qed.

End CompatFacts.

(** * Further runs on the examples *)

(** On the example board ancestors follow subtrees. *)
Lemma example_ancestors_follow_subtrees :
  ancestors_follow_subtrees (tree := Example.forum_tree).
Proof.
  intros g d. unfold subtree_ids, values_list_id, get_descendants.
  cbn [Example.forum_tree forum_id strict_descendants get_ancestors Forum].
  rewrite !map_id.
  destruct (Z.eqb_spec g 1) as [-> | Hg1].
  - intros [<- | [<- | [<- | []]]]; cbn; split; auto; apply incl_nil_l.
  - destruct (Z.eqb_spec g 2) as [-> | Hg2].
    + intros [<- | [<- | []]]; cbn; split; auto.
      * apply incl_refl.
      * intros x [<- | []]. now left.
    + intros [<- | []]. split; [now left |].
      destruct (Z.eqb_spec g 2); [contradiction |]. apply incl_refl.
Qed.

(** Of the four forums Alice is shown forum 4 only: forums 2 and 3 are
    visible to her but their ancestor 1 is not. *)
Lemma forum_list_filter_exact_witness :
  ancestors_follow_subtrees (tree := Example.forum_tree)
  /\ is_superuser Example.alice = false
  /\ forum_list_filter (store := Example.board)
       [Example.forum 1; Example.forum 2; Example.forum 3; Example.forum 4]
       Example.alice
     = [Example.forum 4]
  /\ (In (Example.forum 4)
         (forum_list_filter (store := Example.board)
            [Example.forum 1; Example.forum 2; Example.forum 3; Example.forum 4]
            Example.alice)
      <-> In (Example.forum 4)
            [Example.forum 1; Example.forum 2; Example.forum 3; Example.forum 4]
          /\ qs_contains
               (visible_forums_for (store := Example.board) Example.alice)
               (Example.forum 4) = true
          /\ all_ancestors_visible (store := Example.board) Example.alice
               (Example.forum 4)).
Proof.
  split; [exact example_ancestors_follow_subtrees |].
  split; [reflexivity |]. split; [reflexivity |].
  exact (@forum_list_filter_exact Example.forum_tree Example.board
           [Example.forum 1; Example.forum 2; Example.forum 3; Example.forum 4]
           Example.alice (Example.forum 4)
           example_ancestors_follow_subtrees eq_refl).
Defined.

Lemma last_post_forum_is_listed_witness :
  get_forum_last_post (store := Example.board) (Example.forum 4) Example.alice
  = Some (Example.post 2 4 Example.bob true 200)
  /\ exists f,
       In f (forum_list_filter (store := Example.board)
               (get_descendants (Example.forum 4) true) Example.alice)
       /\ forum_id f
          = forum_id (topic_forum (post_topic
                                     (Example.post 2 4 Example.bob true 200)))
       /\ (is_superuser Example.alice = false ->
           qs_contains
             (visible_forums_for (store := Example.board) Example.alice) f
           = true
           /\ all_ancestors_visible (store := Example.board) Example.alice f).
Proof.
  split; [reflexivity |].
  exact (@last_post_forum_is_listed Example.forum_tree Example.board
           (Example.forum 4) Example.alice
           (Example.post 2 4 Example.bob true 200) eq_refl).
Defined.

(** On the old installation the module loads, with two fallbacks taken. *)
Lemma load_bindings_witness :
  Compat.load string OldInstallation.from_import
    OldInstallation.import_module None
  = Validators.Ok
      {| Compat.PILImage := "PIL.Image"%string;
         Compat.slugify := "django.utils.text.slugify"%string;
         Compat.force_bytes := "django.utils.encoding.smart_str"%string;
         Compat.AUTH_USER_MODEL := "auth.User"%string;
         Compat.get_user_model :=
           Compat.LambdaReturning string
             "django.contrib.auth.models.User"%string |}
  /\ exists User,
       OldInstallation.from_import "django.contrib.auth.models" "User"
       = Some User
       /\ Compat.get_user_model string
            {| Compat.PILImage := "PIL.Image"%string;
               Compat.slugify := "django.utils.text.slugify"%string;
               Compat.force_bytes := "django.utils.encoding.smart_str"%string;
               Compat.AUTH_USER_MODEL := "auth.User"%string;
               Compat.get_user_model :=
                 Compat.LambdaReturning string
                   "django.contrib.auth.models.User"%string |}
          = Compat.LambdaReturning string User.
Proof.
  split; [reflexivity |].
  apply (@load_bindings string OldInstallation.from_import
           OldInstallation.import_module None _ eq_refl).
  reflexivity.
Defined.

Lemma hidden_ids_order_independent_witness :
  subtrees_nested (tree := Example.forum_tree)
  /\ (forall f, In f [Example.forum 2; Example.forum 4]
                <-> In f [Example.forum 4; Example.forum 2; Example.forum 2])
  /\ _get_hidden_forum_ids (store := Example.board)
       [Example.forum 4; Example.forum 2; Example.forum 2] Example.alice
     = [2; 3]
  /\ (In 3 (_get_hidden_forum_ids (store := Example.board)
              [Example.forum 2; Example.forum 4] Example.alice)
      <-> In 3 (_get_hidden_forum_ids (store := Example.board)
                  [Example.forum 4; Example.forum 2; Example.forum 2]
                  Example.alice)).
Proof.
  assert (Hsame : forall f,
             In f [Example.forum 2; Example.forum 4]
             <-> In f [Example.forum 4; Example.forum 2; Example.forum 2])
    by (intros f; simpl; tauto).
  split; [exact example_subtrees_nested |]. split; [exact Hsame |].
  split; [reflexivity |].
  exact (@hidden_ids_order_independent Example.forum_tree Example.board
           Example.alice [Example.forum 2; Example.forum 4]
           [Example.forum 4; Example.forum 2; Example.forum 2] 3
           example_subtrees_nested Hsame).
Defined.

(** Forum 2 holds an approved post, but its ancestor 1 is not visible to
    Alice: she gets no last post from it. *)
Lemma hidden_forum_has_no_last_post_witness :
  is_superuser Example.alice = false
  /\ hidden_for (store := Example.board) Example.alice (Example.forum 2)
  /\ In (Example.post 4 2 Example.alice true 400)
        (post_objects (Store := Example.board))
  /\ get_forum_last_post (store := Example.board) (Example.forum 2)
       Example.alice = None.
Proof.
  assert (Hhidden : hidden_for (store := Example.board) Example.alice
                      (Example.forum 2)).
  { left. exists (Example.forum 1). split; [now left | reflexivity]. }
  split; [reflexivity |]. split; [exact Hhidden |].
  split; [do 3 right; now left |].
  exact (@hidden_forum_has_no_last_post Example.forum_tree Example.board
           (Example.forum 2) Example.alice eq_refl Hhidden).
Defined.
